(** * Arrival scheduler of the parking simulation: [src/models/generator.py]

    A shallow embedding of [VehicleGenerator] and [CustomVehicleGenerator]
    and the properties of the arrival process that follow from the code.

    Conventions of the embedding.
    - Python objects live on a heap and are named by their location, so two
      attributes that hold the same object are aliases of each other.
    - Methods are computations in [Proc], a state and exception monad: a
      Python exception is the result [Raise], and the state reached when it
      was raised is kept, as in-place mutation requires.
    - Simulated time is a Python float, here a binary64 primitive float, so
      that clock arithmetic rounds as it does in Python.
    - [run] is a generator function that the SimPy event loop drives.  The
      embedding follows this one process from its first resumption to its
      end: yielding a timeout hands control to the event loop, which resumes
      the process when the clock reads the time the timeout was scheduled
      for.  What the entities spawned meanwhile do with the pools while the
      scheduler is suspended belongs to their own lifecycle and is not part
      of the embedding.
    - Of SimPy, the embedding keeps what the scheduler relies on:
      [Environment.timeout] rejects a negative delay with [ValueError],
      a timeout fires at [now + delay], and [Environment.process] registers
      a generator without running it. *)

From Stdlib Require Import ZArith PrimFloat.
From stdpp Require Import base option list gmap strings.

(** ** Python values *)

(** Identity of a Python object. *)
Definition loc := positive.

Inductive Exception :=
| AttributeError (name : string)
| ValueError (msg : string)
| IndexError (msg : string).

Inductive Result (A : Type) :=
| Ok (a : A)
| Raise (e : Exception).
Arguments Ok {A} a.
Arguments Raise {A} e.

(** ** The [random] module

    The state of the module-level generator is kept abstract.  [randbelow n]
    is the primitive [random.shuffle] draws from; its contract is that the
    result lies in [range(n)]. *)
Class RandomGen (Rand : Type) := {
  randbelow : nat → Rand → nat * Rand;
  randbelow_lt : ∀ n r, (0 < n)%nat → ((randbelow n r).1 < n)%nat
}.

(** [x[i], x[j] = x[j], x[i]]; [None] stands for the [IndexError] of a
    subscript out of range. *)
Definition swap {A} (i j : nat) (x : list A) : option (list A) :=
  match x !! j, x !! i with
  | Some xj, Some xi => Some (<[j := xi]> (<[i := xj]> x))
  | _, _ => None
  end.

(** The loop of [random.shuffle]:
    [for i in reversed(range(1, len(x))): j = randbelow(i + 1); swap],
    entered at index [i] and running down to index 1. *)
Fixpoint shuffle_loop {A Rand} `{RandomGen Rand}
    (i : nat) (x : list A) (r : Rand) : option (list A) * Rand :=
  match i with
  | O => (Some x, r)
  | S i' =>
      let '(j, r') := randbelow (i + 1) r in
      match swap i j x with
      | Some x' => shuffle_loop i' x' r'
      | None => (None, r')
      end
  end.

Definition shuffle {A Rand} `{RandomGen Rand}
    (x : list A) (r : Rand) : option (list A) * Rand :=
  shuffle_loop (length x - 1) x r.

(** ** Collaborators of the scheduler *)

(** Modelled from the spec: the class [Vehicle] of [src/models/vehicle.py].
    An entity is constructible from an identifier, a type, the environment,
    the two pool handles and the event sink, and is opaque otherwise; the
    record keeps the keyword arguments of the constructor call. *)
Record Vehicle := {
  vid : Z;
  vtype : string;
  v_env : loc;
  v_parking_res : loc;
  v_charger_res : loc;
  v_logger : loc
}.

(** What the scheduler asks of [simpy.Environment], in call order:
    [Timeout at_ d] is [env.timeout(d)] created when the clock read [at_],
    [Process at_ v] is [env.process(v.process())] at clock [at_]. *)
Inductive Call :=
| Timeout (at_ delay : float)
| Process (at_ : float) (v : Vehicle).

Record Environment := {
  now : float;
  calls : list Call
}.

(** A [simpy.Resource]: capacity, current users and waiting requests. *)
Record Resource := {
  capacity : nat;
  users : list Z;
  queue : list Z
}.

(** Modelled from the spec: the class [SimulationLogger] of
    [src/utils/logger.py], an event sink that the scheduler passes on and
    never writes to; its content is kept as the lines logged so far. *)
Record SimulationLogger := {
  lines : list string
}.

(** Objects on the heap. *)
Inductive Obj :=
| OEnvironment (e : Environment)
| OResource (r : Resource)
| OLogger (lg : SimulationLogger).

(** ** The scheduler object and the machine state *)

Section Scheduler.
Context {Rand : Type} `{RandomGen Rand}.

(** An interarrival sampler: a callable without arguments that returns a
    float and may advance the random generator. *)
Definition Sampler : Type := Rand → float * Rand.

(** Instance attributes.  The first five are set by
    [VehicleGenerator.__init__]; the last three only by
    [CustomVehicleGenerator.__init__], [None] meaning that the attribute
    does not exist on the instance. *)
Record VehicleGenerator := {
  env : loc;
  parking_res : loc;
  charger_res : loc;
  logger : loc;
  next_id : Z;
  interarrival_func : option Sampler;
  normal_count : option Z;
  ev_count : option Z
}.

Record Sim := {
  self : VehicleGenerator;
  random : Rand;
  heap : gmap loc Obj
}.

Definition Proc (A : Type) : Type := Sim → Result A * Sim.

Definition proc_ret {A} (a : A) : Proc A := λ s, (Ok a, s).

Definition proc_bind {A B} (k : A → Proc B) (m : Proc A) : Proc B :=
  λ s, match m s with
       | (Ok a, s') => k a s'
       | (Raise e, s') => (Raise e, s')
       end.

Definition raise {A} (e : Exception) : Proc A := λ s, (Raise e, s).

#[global] Instance proc_mret : MRet Proc := @proc_ret.
#[global] Instance proc_mbind : MBind Proc := @proc_bind.

(** *** Attribute access on [self] *)

Definition get_self : Proc VehicleGenerator := λ s, (Ok (self s), s).

(** [self.name] for an attribute that may be missing. *)
Definition getattr {A} (name : string) (field : VehicleGenerator → option A)
    : Proc A :=
  λ s, match field (self s) with
       | Some a => (Ok a, s)
       | None => (Raise (AttributeError name), s)
       end.

Definition with_next_id (g : VehicleGenerator) (i : Z) : VehicleGenerator :=
  {| env := env g; parking_res := parking_res g; charger_res := charger_res g;
     logger := logger g; next_id := i;
     interarrival_func := interarrival_func g;
     normal_count := normal_count g; ev_count := ev_count g |}.

Definition set_next_id (i : Z) : Proc unit :=
  λ s, (Ok tt, {| self := with_next_id (self s) i;
                  random := random s; heap := heap s |}).

(** *** The SimPy environment *)

(** Looks up method [name] on the object at [l]; only an [Environment] has
    the methods the scheduler uses. *)
Definition env_method (name : string) (l : loc) : Proc Environment :=
  λ s, match heap s !! l with
       | Some (OEnvironment e) => (Ok e, s)
       | _ => (Raise (AttributeError name), s)
       end.

Definition store_env (l : loc) (e : Environment) : Proc unit :=
  λ s, (Ok tt, {| self := self s; random := random s;
                  heap := <[l := OEnvironment e]> (heap s) |}).

(** [env.timeout(delay)]: SimPy's [Timeout] constructor raises
    [ValueError] on [delay < 0] and otherwise schedules the event at
    [now + delay]. *)
Definition env_timeout (l : loc) (delay : float) : Proc float :=
  e ← env_method "timeout" l;
  if (delay <? 0)%float then raise (ValueError "Negative delay")
  else
    store_env l {| now := now e;
                   calls := calls e ++ [Timeout (now e) delay] |};;
    mret delay.

(** [yield ev] for a timeout [ev] created just before: the process is
    resumed when the clock has reached the time the event was scheduled for. *)
Definition yield_timeout (l : loc) (delay : float) : Proc unit :=
  e ← env_method "now" l;
  store_env l {| now := (now e + delay)%float; calls := calls e |}.

(** [env.process(vehicle.process())]: registers the lifecycle generator of
    [v]; its body does not start before the caller suspends. *)
Definition env_process (l : loc) (v : Vehicle) : Proc unit :=
  e ← env_method "process" l;
  store_env l {| now := now e; calls := calls e ++ [Process (now e) v] |}.

(** *** Calls into [random] and into the sampler *)

Definition call_sampler (f : Sampler) : Proc float :=
  λ s, let '(d, r') := f (random s) in
       (Ok d, {| self := self s; random := r'; heap := heap s |}).

Definition random_shuffle (x : list string) : Proc (list string) :=
  λ s, let '(o, r') := shuffle x (random s) in
       let s' := {| self := self s; random := r'; heap := heap s |} in
       match o with
       | Some x' => (Ok x', s')
       | None => (Raise (IndexError "list index out of range"), s')
       end.

(** ** [class VehicleGenerator] *)

Definition VehicleGenerator_init (env parking_res charger_res logger : loc)
    : Result VehicleGenerator :=
  Ok {| env := env; parking_res := parking_res; charger_res := charger_res;
        logger := logger; next_id := 0;
        interarrival_func := None; normal_count := None; ev_count := None |}.

Definition generate_vehicle (vtype : string) : Proc unit :=
  g ← get_self;
  let vehicle := {| vid := next_id g; vtype := vtype; v_env := env g;
                    v_parking_res := parking_res g;
                    v_charger_res := charger_res g;
                    v_logger := logger g |} in
  set_next_id (next_id g + 1);;
  env_process (env g) vehicle.

(** The [for] loop of [VehicleGenerator.run]. *)
Fixpoint VehicleGenerator_run_loop (vehicle_types : list string) : Proc unit :=
  match vehicle_types with
  | [] => mret tt
  | vtype :: rest =>
      g ← get_self;
      _ ← env_method "timeout" (env g);
      f ← getattr "interarrival_func" interarrival_func;
      d ← call_sampler f;
      ev ← env_timeout (env g) d;
      yield_timeout (env g) ev;;
      generate_vehicle vtype;;
      VehicleGenerator_run_loop rest
  end.

(** The statements of [VehicleGenerator.run] before the loop; the result is
    the local variable [vehicle_types] after the shuffle. *)
Definition VehicleGenerator_vehicle_types : Proc (list string) :=
  n ← getattr "normal_count" normal_count;
  m ← getattr "ev_count" ev_count;
  let total_vehicles := (n + m)%Z in
  n ← getattr "normal_count" normal_count;
  let normals := replicate (Z.to_nat n) "normal" in
  m ← getattr "ev_count" ev_count;
  let vehicle_types := normals ++ replicate (Z.to_nat m) "ev" in
  random_shuffle vehicle_types.

Definition VehicleGenerator_run : Proc unit :=
  vehicle_types ← VehicleGenerator_vehicle_types;
  VehicleGenerator_run_loop vehicle_types.

(** ** [class CustomVehicleGenerator(VehicleGenerator)] *)

(** Names the module imports from [src.config] and [src.utils.helpers]. *)
Record Config := {
  NUM_NORMAL : Z;
  NUM_EV : Z;
  sample_interarrival : Sampler
}.

(** The three assignments that follow [super().__init__(...)]. *)
Definition set_custom_attrs (g : VehicleGenerator) (f : Sampler) (n m : Z)
    : VehicleGenerator :=
  {| env := env g; parking_res := parking_res g; charger_res := charger_res g;
     logger := logger g; next_id := next_id g;
     interarrival_func := Some f; normal_count := Some n; ev_count := Some m |}.

(** An omitted keyword argument is [None]; for [interarrival_func] that is
    also the Python default. *)
Definition CustomVehicleGenerator_init (cfg : Config)
    (env parking_res charger_res logger : loc)
    (interarrival_func : option Sampler) (normal_count ev_count : option Z)
    : Result VehicleGenerator :=
  match VehicleGenerator_init env parking_res charger_res logger with
  | Raise e => Raise e
  | Ok g =>
      Ok (set_custom_attrs g
            (match interarrival_func with
             | Some f => f
             | None => sample_interarrival cfg
             end)
            (default (NUM_NORMAL cfg) normal_count)
            (default (NUM_EV cfg) ev_count))
  end.

(** The [for] loop of [CustomVehicleGenerator.run]. *)
Fixpoint CustomVehicleGenerator_run_loop (vehicle_types : list string)
    : Proc unit :=
  match vehicle_types with
  | [] => mret tt
  | vtype :: rest =>
      g ← get_self;
      _ ← env_method "timeout" (env g);
      f ← getattr "interarrival_func" interarrival_func;
      d ← call_sampler f;
      ev ← env_timeout (env g) d;
      yield_timeout (env g) ev;;
      generate_vehicle vtype;;
      CustomVehicleGenerator_run_loop rest
  end.

Definition CustomVehicleGenerator_vehicle_types : Proc (list string) :=
  n ← getattr "normal_count" normal_count;
  m ← getattr "ev_count" ev_count;
  let total_vehicles := (n + m)%Z in
  n ← getattr "normal_count" normal_count;
  let normals := replicate (Z.to_nat n) "normal" in
  m ← getattr "ev_count" ev_count;
  let vehicle_types := normals ++ replicate (Z.to_nat m) "ev" in
  random_shuffle vehicle_types.

Definition CustomVehicleGenerator_run : Proc unit :=
  vehicle_types ← CustomVehicleGenerator_vehicle_types;
  CustomVehicleGenerator_run_loop vehicle_types.

(** ** Observations on a run *)

(** The environment the scheduler holds, when its [env] attribute is one. *)
Definition env_of (s : Sim) : option Environment :=
  match heap s !! env (self s) with
  | Some (OEnvironment e) => Some e
  | _ => None
  end.

(** The calls the environment received between two states. *)
Definition calls_during (s s' : Sim) : list Call :=
  match env_of s, env_of s' with
  | Some e, Some e' => drop (length (calls e)) (calls e')
  | _, _ => []
  end.

(** Spawned entities with the clock at their registration, in spawn order. *)
Definition spawned (cs : list Call) : list (float * Vehicle) :=
  omap (λ c, match c with
             | Process t v => Some (t, v)
             | Timeout _ _ => None
             end) cs.

(** Delays of the timeouts the process suspended on, in order. *)
Definition delays (cs : list Call) : list float :=
  omap (λ c, match c with
             | Timeout _ d => Some d
             | Process _ _ => None
             end) cs.

(** The delays returned by [n] successive calls of the sampler, and the
    state of the random generator after them. *)
Fixpoint sample_seq (f : Sampler) (n : nat) (r : Rand) : list float :=
  match n with
  | O => []
  | S n' => let '(d, r') := f r in d :: sample_seq f n' r'
  end.

Fixpoint sample_state (f : Sampler) (n : nat) (r : Rand) : Rand :=
  match n with
  | O => r
  | S n' => sample_state f n' (f r).2
  end.

(** The longest prefix of delays that [env.timeout] accepts. *)
Fixpoint accepted (ds : list float) : list float :=
  match ds with
  | [] => []
  | d :: ds' => if (d <? 0)%float then [] else d :: accepted ds'
  end.

(** The entity [generate_vehicle] builds when the counter reads [k]. *)
Definition mk_vehicle (g : VehicleGenerator) (k : Z) (vtype : string)
    : Vehicle :=
  {| vid := k; vtype := vtype; v_env := env g;
     v_parking_res := parking_res g; v_charger_res := charger_res g;
     v_logger := logger g |}.

(** The calls of a loop that starts at clock [t] and counter [k] and gets
    through the delays [ds]: suspend, then spawn, once per planned type. *)
Fixpoint arrivals (g : VehicleGenerator) (t : float) (k : Z)
    (plan : list string) (ds : list float) : list Call :=
  match plan, ds with
  | vtype :: plan', d :: ds' =>
      Timeout t d :: Process (t + d) (mk_vehicle g k vtype)
        :: arrivals g (t + d)%float (k + 1) plan' ds'
  | _, _ => []
  end.

(** The list [vehicle_types] before it is shuffled. *)
Definition unshuffled (n m : Z) : list string :=
  replicate (Z.to_nat n) "normal" ++ replicate (Z.to_nat m) "ev".

(** The shuffled list, and the state of the random generator after the
    shuffle, which is the state the first sampler call sees. *)
Definition shuffled_plan (n m : Z) (r : Rand) : list string :=
  default [] (shuffle (unshuffled n m) r).1.

Definition shuffled_state (n m : Z) (r : Rand) : Rand :=
  (shuffle (unshuffled n m) r).2.

(** Running sums of the delays, from clock [t]. *)
Fixpoint cumulative (t : float) (ds : list float) : list float :=
  match ds with
  | [] => []
  | d :: ds' => (t + d)%float :: cumulative (t + d) ds'
  end.

(** An entity that was handed the scheduler's own environment, pools and
    event sink. *)
Definition passes_handles (g : VehicleGenerator) (v : Vehicle) : Prop :=
  v_env v = env g ∧ v_parking_res v = parking_res g
  ∧ v_charger_res v = charger_res g ∧ v_logger v = logger g.

(** The effect of an operation, as a function of the only parts of the
    state it depends on (the scheduler's attributes, the random generator
    and the environment behind [env]): the result, the new value of the
    counter, the new random state and, when the environment was called, its
    new clock with the calls it received. *)
Definition Effect : Type := Result unit * Z * Rand * option (float * list Call).

Definition apply_effect (eff : Effect) (s : Sim) : Result unit * Sim :=
  let '(res, k, r', upd) := eff in
  (res,
   {| self := with_next_id (self s) k;
      random := r';
      heap := match upd, env_of s with
              | Some (t', tr), Some e =>
                  <[env (self s) :=
                      OEnvironment {| now := t'; calls := calls e ++ tr |}]>
                    (heap s)
              | _, _ => heap s
              end |}).

Definition generate_vehicle_effect (vtype : string) (g : VehicleGenerator)
    (r : Rand) (oe : option Environment) : Effect :=
  match oe with
  | Some e =>
      (Ok tt, (next_id g + 1)%Z, r,
       Some (now e, [Process (now e) (mk_vehicle g (next_id g) vtype)]))
  | None => (Raise (AttributeError "process"), (next_id g + 1)%Z, r, None)
  end.

Definition run_effect (g : VehicleGenerator) (r : Rand)
    (oe : option Environment) : Effect :=
  match normal_count g, ev_count g with
  | None, _ => (Raise (AttributeError "normal_count"), next_id g, r, None)
  | Some _, None => (Raise (AttributeError "ev_count"), next_id g, r, None)
  | Some n, Some m =>
      let plan := shuffled_plan n m r in
      let r1 := shuffled_state n m r in
      match plan, oe, interarrival_func g with
      | [], _, _ => (Ok tt, next_id g, r1, None)
      | _ :: _, None, _ =>
          (Raise (AttributeError "timeout"), next_id g, r1, None)
      | _ :: _, Some _, None =>
          (Raise (AttributeError "interarrival_func"), next_id g, r1, None)
      | _ :: _, Some e, Some f =>
          let ds := accepted (sample_seq f (length plan) r1) in
          (if decide (length ds = length plan) then Ok tt
           else Raise (ValueError "Negative delay"),
           (next_id g + Z.of_nat (length ds))%Z,
           sample_state f (S (length ds) `min` length plan) r1,
           Some (fold_left PrimFloat.add ds (now e),
                 arrivals g (now e) (next_id g) plan ds))
      end
  end.

(** Operations a driver can invoke on a scheduler, and a driver that goes
    on after an exception, with the state the exception left. *)
Inductive Op :=
| OpGenerate (vtype : string)
| OpRun.

Definition exec_op (o : Op) : Proc unit :=
  match o with
  | OpGenerate vtype => generate_vehicle vtype
  | OpRun => CustomVehicleGenerator_run
  end.

Definition op_effect (o : Op)
    : VehicleGenerator → Rand → option Environment → Effect :=
  match o with
  | OpGenerate vtype => generate_vehicle_effect vtype
  | OpRun => run_effect
  end.

Fixpoint exec_ops (ops : list Op) (s : Sim) : Sim :=
  match ops with
  | [] => s
  | o :: ops' => exec_ops ops' (exec_op o s).2
  end.

(** Replaces the object at [l], leaving the rest of the state alone. *)
Definition poke (l : loc) (o : Obj) (s : Sim) : Sim :=
  {| self := self s; random := random s; heap := <[l := o]> (heap s) |}.

End Scheduler.

(** ** A concrete random generator: a tape of raw draws

    [randbelow n] consumes the next draw and reduces it into [range(n)]; an
    exhausted tape keeps answering 0. *)

Definition tape_randbelow (n : nat) (r : list nat) : nat * list nat :=
  match r with
  | [] => (0%nat, [])
  | k :: r' => (k `mod` n, r')
  end.

Lemma tape_randbelow_lt n r : (0 < n)%nat → ((tape_randbelow n r).1 < n)%nat.
Proof.
  intros Hn. destruct r as [|k r']; simpl; [done|].
  apply Nat.mod_upper_bound. lia.
Qed.

#[global] Instance tape_random : RandomGen (list nat) :=
  {| randbelow := tape_randbelow; randbelow_lt := tape_randbelow_lt |}.


(** ** A scenario

    One environment, two pools and a logger on the heap; samplers that
    ignore the tape or read it; schedulers built by the constructor. *)

Definition const_sampler (d : float) : @Sampler (list nat) := λ r, (d, r).

(** Returns -1.0 when the next draw is 0 and 1.0 otherwise. *)
Definition tape_sampler : @Sampler (list nat) :=
  λ r, match r with
       | [] => (1%float, [])
       | k :: r' => (if (k =? 0)%nat then (-1)%float else 1%float, r')
       end.

(** Stand-ins for the defaults of [src.config] and [src.utils.helpers]. *)
Definition demo_cfg : @Config (list nat) :=
  {| NUM_NORMAL := 10; NUM_EV := 5; sample_interarrival := const_sampler 2 |}.

Definition demo_env : Environment := {| now := 0; calls := [] |}.

Definition demo_heap : gmap loc Obj :=
  <[1%positive := OEnvironment demo_env]>
    (<[2%positive :=
         OResource {| capacity := 20; users := []; queue := [] |}]>
       (<[3%positive :=
            OResource {| capacity := 4; users := [7%Z]; queue := [] |}]>
          (<[4%positive := OLogger {| lines := [] |}]> ∅))).

(** The instance a constructor call returned.  The constructors never
    raise, so [blank] only fills the branch that is never taken. *)
Definition blank : @VehicleGenerator (list nat) :=
  {| env := 1%positive; parking_res := 1%positive; charger_res := 1%positive;
     logger := 1%positive; next_id := 0; interarrival_func := None;
     normal_count := None; ev_count := None |}.

Definition built (res : Result (@VehicleGenerator (list nat)))
    : @VehicleGenerator (list nat) :=
  match res with
  | Ok g => g
  | Raise _ => blank
  end.

(** A scheduler on the environment at [env_], with the pools at 2 and 3 and
    the logger at 4. *)
Definition demo_generator (env_ : loc) (f : @Sampler (list nat)) (n m : Z)
    : @VehicleGenerator (list nat) :=
  built (CustomVehicleGenerator_init demo_cfg env_ 2%positive 3%positive
           4%positive (Some f) (Some n) (Some m)).

Definition demo_state (f : @Sampler (list nat)) (n m : Z) (tape : list nat)
    : @Sim (list nat) :=
  {| self := demo_generator 1%positive f n m; random := tape;
     heap := demo_heap |}.

Definition demo_tape : list nat := [5; 7; 1; 0; 3; 3; 0; 3; 3]%nat.

(** A steady sampler, counts 3 and 2. *)
Definition steady : @Sim (list nat) :=
  demo_state (const_sampler 1) 3 2 demo_tape.

Definition steady_done : @Sim (list nat) :=
  (CustomVehicleGenerator_run steady).2.

(** The same scheduler with a sampler whose third delay is negative. *)
Definition jolted : @Sim (list nat) := demo_state tape_sampler 3 2 demo_tape.

(** Nothing to spawn. *)
Definition idle : @Sim (list nat) :=
  demo_state (const_sampler 1) 0 0 demo_tape.

(** A second scheduler with the counts and the sampler of [steady], on an
    environment of its own whose clock reads 100, its counter at 40. *)
Definition late_env : Environment :=
  {| now := 100; calls := [Timeout 0 100] |}.

Definition late : @Sim (list nat) :=
  {| self := with_next_id (demo_generator 9%positive (const_sampler 1) 3 2) 40;
     random := demo_tape;
     heap := <[9%positive := OEnvironment late_env]> demo_heap |}.

Definition demo_ops : list Op := [OpGenerate "ev"; OpRun; OpGenerate "normal"].

(** ** Entities injected outside the plan

    [generate_vehicle] is also an entry point of its own.  A driver that
    injects one entity per given type, in order, is
    [for vtype in vtypes: generator.generate_vehicle(vtype)]. *)

Section Injection.
Context {Rand : Type} `{RandomGen Rand}.

Fixpoint generate_each (vtypes : list string) : @Proc Rand unit :=
  match vtypes with
  | [] => mret tt
  | vtype :: rest => generate_vehicle vtype;; generate_each rest
  end.

(** The calls of such a driver from clock [t] and counter [k]: one process
    per type, all registered at [t]. *)
Fixpoint injections (g : @VehicleGenerator Rand) (t : float) (k : Z)
    (vtypes : list string) : list Call :=
  match vtypes with
  | [] => []
  | vtype :: rest =>
      Process t (mk_vehicle g k vtype) :: injections g t (k + 1) rest
  end.

End Injection.

(** A scheduler whose [env] argument was the parking pool. *)
Definition adrift : @Sim (list nat) :=
  {| self := demo_generator 2%positive (const_sampler 1) 3 2;
     random := demo_tape; heap := demo_heap |}.

(** Only normal vehicles. *)
Definition normals_only : @Sim (list nat) :=
  demo_state (const_sampler 1) 3 0 demo_tape.

(** A scheduler built with every optional argument left out. *)
Definition by_default : @Sim (list nat) :=
  {| self := built (CustomVehicleGenerator_init demo_cfg 1%positive 2%positive
                      3%positive 4%positive None None None);
     random := demo_tape; heap := demo_heap |}.

(** * Properties *)

Section Properties.
Context {Rand : Type} `{RandomGen Rand}.
Implicit Types (s : @Sim Rand) (g : @VehicleGenerator Rand) (f : @Sampler Rand).
Implicit Types (r : Rand) (e : Environment) (plan rest : list string).
Implicit Types (vtype : string) (n m k : Z) (d t : float) (ds : list float).
Implicit Types (cfg : @Config Rand) (fo : option (@Sampler Rand)) (l : loc).

(** ** [random.shuffle] permutes and never fails *)

Lemma swap_Some {A} (i j : nat) (x : list A) :
  (i < length x)%nat → (j < length x)%nat →
  ∃ x', swap i j x = Some x' ∧ x' ≡ₚ x ∧ length x' = length x.
Proof.
  intros [xi Hi]%lookup_lt_is_Some_2 [xj Hj]%lookup_lt_is_Some_2.
  unfold swap. rewrite Hi, Hj. eexists; split; [done|]. split.
  - by apply Permutation_insert_swap.
  - by rewrite !length_insert.
Qed.

Lemma shuffle_loop_Some {A} (i : nat) : ∀ (x : list A) (r : Rand),
  (i < length x)%nat →
  ∃ x', (shuffle_loop i x r).1 = Some x' ∧ x' ≡ₚ x.
Proof.
  induction i as [|i IH]; intros x r Hi; cbn [shuffle_loop].
  - by exists x.
  - pose proof (randbelow_lt (S i + 1) r ltac:(lia)) as Hj.
    destruct (randbelow (S i + 1) r) as [j r']; simpl in Hj.
    destruct (swap_Some (S i) j x) as (x' & -> & Hp & Hlen); [lia..|].
    destruct (IH x' r') as (x'' & Hx'' & Hp'); [lia|].
    exists x''. split; [done|]. by rewrite Hp'.
Qed.

Lemma shuffle_Some {A} (x : list A) (r : Rand) :
  ∃ x', (shuffle x r).1 = Some x' ∧ x' ≡ₚ x.
Proof.
  unfold shuffle. destruct x as [|a x]; [by exists []|].
  apply shuffle_loop_Some. simpl. lia.
Qed.

(** ** One step of each operation *)

Ltac proc_unfold :=
  unfold mbind, proc_mbind, proc_bind, mret, proc_mret, proc_ret,
    get_self, set_next_id, store_env, raise in *.

Lemma generate_vehicle_step vtype s :
  generate_vehicle vtype s =
    let g' := with_next_id (self s) (next_id (self s) + 1) in
    match env_of s with
    | Some e =>
        (Ok tt,
         {| self := g'; random := random s;
            heap := <[env (self s) :=
                        OEnvironment
                          {| now := now e;
                             calls := calls e ++
                               [Process (now e)
                                  (mk_vehicle (self s) (next_id (self s)) vtype)] |}]>
                      (heap s) |})
    | None =>
        (Raise (AttributeError "process"),
         {| self := g'; random := random s; heap := heap s |})
    end.
Proof.
  unfold generate_vehicle, env_process, env_method, env_of. proc_unfold. simpl.
  destruct (heap s !! env (self s)) as [[e|?|?]|]; reflexivity.
Qed.

Lemma run_loop_nil s :
  CustomVehicleGenerator_run_loop [] s = (Ok tt, s).
Proof. reflexivity. Qed.

Lemma run_loop_no_env vtype rest s :
  env_of s = None →
  CustomVehicleGenerator_run_loop (vtype :: rest) s
  = (Raise (AttributeError "timeout"), s).
Proof.
  unfold env_of. intros He. cbn [CustomVehicleGenerator_run_loop].
  unfold env_method. proc_unfold. simpl.
  destruct (heap s !! env (self s)) as [[e|?|?]|]; done.
Qed.

Lemma run_loop_no_sampler vtype rest s e :
  env_of s = Some e → interarrival_func (self s) = None →
  CustomVehicleGenerator_run_loop (vtype :: rest) s
  = (Raise (AttributeError "interarrival_func"), s).
Proof.
  unfold env_of. intros He Hf. cbn [CustomVehicleGenerator_run_loop].
  unfold env_method, getattr. proc_unfold. simpl.
  destruct (heap s !! env (self s)) as [[e'|?|?]|]; try done.
  by rewrite Hf.
Qed.

Lemma run_loop_cons vtype rest s e f :
  env_of s = Some e → interarrival_func (self s) = Some f →
  CustomVehicleGenerator_run_loop (vtype :: rest) s =
    let d := (f (random s)).1 in
    let r' := (f (random s)).2 in
    if (d <? 0)%float then
      (Raise (ValueError "Negative delay"),
       {| self := self s; random := r'; heap := heap s |})
    else
      CustomVehicleGenerator_run_loop rest
        {| self := with_next_id (self s) (next_id (self s) + 1);
           random := r';
           heap := <[env (self s) :=
                       OEnvironment
                         {| now := (now e + d)%float;
                            calls := calls e ++
                              [Timeout (now e) d;
                               Process (now e + d)
                                 (mk_vehicle (self s) (next_id (self s)) vtype)] |}]>
                     (heap s) |}.
Proof.
  unfold env_of. intros He Hf. cbn [CustomVehicleGenerator_run_loop].
  destruct (heap s !! env (self s)) as [[e'|?|?]|] eqn:Hh; simplify_eq.
  unfold env_timeout, yield_timeout, env_method, getattr, call_sampler.
  proc_unfold. simpl. rewrite Hh, Hf.
  destruct (f (random s)) as [d r']; simpl. rewrite Hh.
  destruct (d <? 0)%float; [done|]. simpl.
  rewrite lookup_insert_eq. rewrite generate_vehicle_step.
  unfold env_of; simpl. rewrite lookup_insert_eq. simpl.
  rewrite !insert_insert_eq, <- app_assoc. reflexivity.
Qed.

(** ** The loop in closed form *)

Lemma with_next_id_same g : with_next_id g (next_id g + 0) = g.
Proof. destruct g; unfold with_next_id; simpl. by rewrite Z.add_0_r. Qed.

Lemma arrivals_with_next_id g (i : Z) plan : ∀ t k ds,
  arrivals (with_next_id g i) t k plan ds = arrivals g t k plan ds.
Proof.
  induction plan as [|vtype plan IH]; intros t k [|d ds]; simpl; try done.
  by rewrite IH.
Qed.

Lemma env_of_heap s e :
  env_of s = Some e → heap s !! env (self s) = Some (OEnvironment e).
Proof.
  unfold env_of. destruct (heap s !! env (self s)) as [[e'|?|?]|]; naive_solver.
Qed.

Lemma sim_same s e :
  env_of s = Some e →
  {| self := with_next_id (self s) (next_id (self s) + 0);
     random := random s;
     heap := <[env (self s) :=
                 OEnvironment {| now := now e; calls := calls e ++ [] |}]>
               (heap s) |} = s.
Proof.
  intros He%env_of_heap. rewrite with_next_id_same, app_nil_r.
  destruct s as [g r h], e as [t cs]; simpl in *. by rewrite insert_id.
Qed.

(** Started on an environment with a sampler, the loop gets through the
    accepted prefix [ds] of the sampled delays: it completes when that is
    all of them and raises [ValueError] at the first negative delay. *)
Lemma run_loop_closed plan : ∀ s e f,
  env_of s = Some e → interarrival_func (self s) = Some f →
  let ds := accepted (sample_seq f (length plan) (random s)) in
  CustomVehicleGenerator_run_loop plan s =
    (if decide (length ds = length plan) then Ok tt
     else Raise (ValueError "Negative delay"),
     {| self := with_next_id (self s) (next_id (self s) + Z.of_nat (length ds));
        random := sample_state f (S (length ds) `min` length plan) (random s);
        heap := <[env (self s) :=
                    OEnvironment
                      {| now := fold_left PrimFloat.add ds (now e);
                         calls := calls e ++
                           arrivals (self s) (now e) (next_id (self s)) plan ds |}]>
                  (heap s) |}).
Proof.
  induction plan as [|vtype rest IH]; intros s e f He Hf.
  { simpl. by rewrite sim_same. }
  rewrite (run_loop_cons _ _ _ e f) by done.
  cbn [length sample_seq]. cbn zeta.
  destruct (f (random s)) as [d r'] eqn:Hfr. cbn [fst snd accepted].
  destruct (d <? 0)%float eqn:Hd.
  { pose proof (sim_same s e He) as Hs. destruct s as [g r h].
    injection Hs as Hg Hh. cbn [self random heap] in *.
    cbn [length Z.of_nat fold_left arrivals Nat.min sample_state].
    change (Z.of_nat 0) with 0%Z. rewrite Hg, Hh, Hfr.
    by case_decide. }
  set (s1 := Build_Sim _ _ _).
  assert (env_of s1 = Some (Build_Environment (now e + d)
            (calls e ++ [Timeout (now e) d;
               Process (now e + d) (mk_vehicle (self s) (next_id (self s)) vtype)])))
    as He1.
  { unfold env_of, s1; simpl. by rewrite lookup_insert_eq. }
  rewrite (IH s1 _ f He1) by done.
  subst s1; cbn [self random heap length now calls fold_left arrivals].
  f_equal.
  - repeat case_decide; try done; lia.
  - f_equal.
    + unfold with_next_id; simpl. f_equal. lia.
    + simpl. by rewrite Hfr.
    + rewrite insert_insert_eq, <- app_assoc, arrivals_with_next_id.
      reflexivity.
Qed.

(** ** What the calls of a loop show *)

Lemma spawned_arrivals_length g plan : ∀ t k ds,
  length (spawned (arrivals g t k plan ds)) = (length plan `min` length ds)%nat.
Proof.
  induction plan as [|vtype plan IH]; intros t k [|d ds]; simpl; try done.
  unfold spawned in IH. by rewrite IH.
Qed.

Lemma spawned_arrivals_types g plan : ∀ t k ds,
  (λ tv, vtype tv.2) <$> spawned (arrivals g t k plan ds)
  = take (length ds) plan.
Proof.
  induction plan as [|v plan IH]; intros t k [|d ds]; simpl; try done.
  unfold spawned in IH. by rewrite IH.
Qed.

Lemma spawned_arrivals_vids g plan : ∀ t k ds,
  (λ tv, vid tv.2) <$> spawned (arrivals g t k plan ds)
  = seqZ k (Z.of_nat (length plan `min` length ds)).
Proof.
  induction plan as [|v plan IH]; intros t k [|d ds]; try done.
  change (spawned (arrivals g t k (v :: plan) (d :: ds)))
    with (((t + d)%float, mk_vehicle g k v)
            :: spawned (arrivals g (t + d) (k + 1) plan ds)).
  change (length (v :: plan) `min` length (d :: ds))%nat
    with (S (length plan `min` length ds)).
  rewrite fmap_cons, IH, Nat2Z.inj_succ, (seqZ_cons k) by lia.
  cbn [snd vid mk_vehicle]. f_equal. f_equal; lia.
Qed.

Lemma spawned_arrivals_times g plan : ∀ t k ds,
  fst <$> spawned (arrivals g t k plan ds)
  = cumulative t (take (length plan) ds).
Proof.
  induction plan as [|v plan IH]; intros t k [|d ds]; simpl; try done.
  unfold spawned in IH. by rewrite IH.
Qed.

Lemma delays_arrivals g plan : ∀ t k ds,
  delays (arrivals g t k plan ds) = take (length plan) ds.
Proof.
  induction plan as [|v plan IH]; intros t k [|d ds]; simpl; try done.
  unfold delays in IH. by rewrite IH.
Qed.

Lemma spawned_arrivals_handles g plan : ∀ t k ds t' v,
  (t', v) ∈ spawned (arrivals g t k plan ds) → passes_handles g v.
Proof.
  induction plan as [|vt plan IH]; intros t k [|d ds] t' v; simpl;
    try by intros ?%elem_of_nil.
  intros [?|Hin]%elem_of_cons; [by simplify_eq|]. by eapply IH.
Qed.

Lemma cumulative_lookup ds : ∀ t (i : nat),
  (i < length ds)%nat →
  cumulative t ds !! i = Some (fold_left PrimFloat.add (take (S i) ds) t).
Proof.
  induction ds as [|d ds IH]; intros t i Hi; simpl in *; [lia|].
  destruct i as [|i]; [done|]. simpl. apply IH. lia.
Qed.



Lemma accepted_prefix ds : accepted ds = take (length (accepted ds)) ds.
Proof.
  induction ds as [|d ds IH]; simpl; [done|].
  destruct (d <? 0)%float; simpl; by rewrite <- ?IH.
Qed.

Lemma accepted_all ds : length (accepted ds) = length ds → accepted ds = ds.
Proof.
  intros Hlen. rewrite accepted_prefix, Hlen. apply firstn_all.
Qed.


Lemma sample_seq_length f (i : nat) : ∀ r, length (sample_seq f i r) = i.
Proof.
  induction i as [|i IH]; intros r; simpl; [done|].
  destruct (f r) as [d r']; simpl. by rewrite IH.
Qed.

(** ** [run] in closed form *)

Lemma shuffled_plan_spec n m r :
  shuffle (unshuffled n m) r = (Some (shuffled_plan n m r), shuffled_state n m r)
  ∧ shuffled_plan n m r ≡ₚ unshuffled n m.
Proof.
  unfold shuffled_plan, shuffled_state.
  destruct (shuffle_Some (unshuffled n m) r) as (x' & Hx' & Hp).
  destruct (shuffle (unshuffled n m) r) as [o r1]; simpl in *. by subst o.
Qed.

Lemma vehicle_types_closed s n m :
  normal_count (self s) = Some n → ev_count (self s) = Some m →
  CustomVehicleGenerator_vehicle_types s
  = (Ok (shuffled_plan n m (random s)),
     {| self := self s; random := shuffled_state n m (random s);
        heap := heap s |}).
Proof.
  intros Hn Hm. unfold CustomVehicleGenerator_vehicle_types, getattr.
  proc_unfold. do 2 (rewrite Hn; cbn beta iota; rewrite Hm; cbn beta iota).
  unfold random_shuffle. fold (unshuffled n m).
  by destruct (shuffled_plan_spec n m (random s)) as [-> _].
Qed.

Lemma vehicle_types_no_normal_count s :
  normal_count (self s) = None →
  CustomVehicleGenerator_vehicle_types s
  = (Raise (AttributeError "normal_count"), s).
Proof.
  intros Hn. unfold CustomVehicleGenerator_vehicle_types, getattr.
  proc_unfold. by rewrite Hn.
Qed.

Lemma run_unfold s n m :
  normal_count (self s) = Some n → ev_count (self s) = Some m →
  CustomVehicleGenerator_run s
  = CustomVehicleGenerator_run_loop (shuffled_plan n m (random s))
      {| self := self s; random := shuffled_state n m (random s);
         heap := heap s |}.
Proof.
  intros Hn Hm. unfold CustomVehicleGenerator_run. proc_unfold.
  by rewrite (vehicle_types_closed s n m).
Qed.

Lemma run_closed s e f n m :
  normal_count (self s) = Some n → ev_count (self s) = Some m →
  env_of s = Some e → interarrival_func (self s) = Some f →
  let plan := shuffled_plan n m (random s) in
  let r1 := shuffled_state n m (random s) in
  let ds := accepted (sample_seq f (length plan) r1) in
  CustomVehicleGenerator_run s =
    (if decide (length ds = length plan) then Ok tt
     else Raise (ValueError "Negative delay"),
     {| self := with_next_id (self s) (next_id (self s) + Z.of_nat (length ds));
        random := sample_state f (S (length ds) `min` length plan) r1;
        heap := <[env (self s) :=
                    OEnvironment
                      {| now := fold_left PrimFloat.add ds (now e);
                         calls := calls e ++
                           arrivals (self s) (now e) (next_id (self s)) plan ds |}]>
                  (heap s) |}).
Proof.
  intros Hn Hm He Hf. cbn zeta. rewrite (run_unfold s n m) by done.
  by rewrite (run_loop_closed _ _ e f).
Qed.

Lemma calls_during_insert s s' e t' (tr : list Call) :
  env_of s = Some e →
  env (self s') = env (self s) →
  heap s' = <[env (self s) :=
                OEnvironment {| now := t'; calls := calls e ++ tr |}]> (heap s) →
  calls_during s s' = tr.
Proof.
  intros He Henv Hh. unfold calls_during. rewrite He.
  unfold env_of. rewrite Henv, Hh, lookup_insert_eq. simpl.
  apply drop_app_length.
Qed.

Lemma calls_during_same_heap s s' :
  env (self s') = env (self s) → heap s' = heap s → calls_during s s' = [].
Proof.
  intros Henv Hh. unfold calls_during, env_of. rewrite Henv, Hh.
  destruct (heap s !! env (self s)) as [[e|?|?]|]; try done.
  by rewrite drop_all.
Qed.

(** A run that completes either had nothing planned and left the state as
    it was after the shuffle, or went through the whole plan with every
    sampled delay accepted. *)
Lemma run_Ok_inv s s' n m :
  normal_count (self s) = Some n → ev_count (self s) = Some m →
  CustomVehicleGenerator_run s = (Ok tt, s') →
  let plan := shuffled_plan n m (random s) in
  let r1 := shuffled_state n m (random s) in
  (plan = [] ∧ s' = {| self := self s; random := r1; heap := heap s |})
  ∨ ∃ e f,
      env_of s = Some e ∧ interarrival_func (self s) = Some f
      ∧ accepted (sample_seq f (length plan) r1) = sample_seq f (length plan) r1
      ∧ calls_during s s'
        = arrivals (self s) (now e) (next_id (self s)) plan
            (sample_seq f (length plan) r1)
      ∧ self s' = with_next_id (self s) (next_id (self s) + Z.of_nat (length plan))
      ∧ env_of s'
        = Some {| now := fold_left PrimFloat.add
                           (sample_seq f (length plan) r1) (now e);
                  calls := calls e ++
                    arrivals (self s) (now e) (next_id (self s)) plan
                      (sample_seq f (length plan) r1) |}.
Proof.
  intros Hn Hm Hrun. cbn zeta.
  rewrite (run_unfold s n m) in Hrun by done.
  destruct (shuffled_plan n m (random s)) as [|vtype rest] eqn:Hplan.
  { left. rewrite run_loop_nil in Hrun. by simplify_eq. }
  right. destruct (env_of s) as [e|] eqn:He; last first.
  { by rewrite run_loop_no_env in Hrun. }
  destruct (interarrival_func (self s)) as [f|] eqn:Hf; last first.
  { by rewrite (run_loop_no_sampler _ _ _ e) in Hrun. }
  exists e, f. rewrite <- Hplan in *.
  rewrite (run_loop_closed _ _ e f) in Hrun by done. cbn [self random heap] in Hrun.
  pose proof (sample_seq_length f (length (shuffled_plan n m (random s)))
                (shuffled_state n m (random s))) as Hlen.
  set (ds := sample_seq _ _ _) in *. set (plan := shuffled_plan _ _ _) in *.
  case_decide as Hacc; [|done].
  rewrite <- Hlen in Hacc. apply accepted_all in Hacc. rewrite Hacc in Hrun.
  clearbody ds plan. injection Hrun as <-.
  split_and!; try done.
  - by eapply calls_during_insert.
  - cbn [self]. by rewrite Hlen.
  - unfold env_of. cbn [self heap with_next_id env].
    by rewrite lookup_insert_eq.
Qed.

(** ** The plan and the entities of a run *)

Lemma filter_replicate_eq (x : string) (i : nat) :
  filter (λ y, y = x) (replicate i x) = replicate i x.
Proof.
  induction i as [|i IH]; simpl; [done|]. by rewrite filter_cons_True, IH.
Qed.

Lemma filter_replicate_ne (x z : string) (i : nat) :
  z ≠ x → filter (λ y, y = x) (replicate i z) = [].
Proof.
  intros Hne. induction i as [|i IH]; simpl; [done|].
  by rewrite filter_cons_False.
Qed.

Lemma unshuffled_counts n m :
  length (unshuffled n m) = (Z.to_nat n + Z.to_nat m)%nat
  ∧ length (filter (λ y, y = "normal") (unshuffled n m)) = Z.to_nat n
  ∧ length (filter (λ y, y = "ev") (unshuffled n m)) = Z.to_nat m.
Proof.
  unfold unshuffled. rewrite !filter_app, !length_app.
  rewrite !filter_replicate_eq, !filter_replicate_ne by done.
  rewrite !length_replicate. simpl. lia.
Qed.

(** The types of the entities a completed run spawned are the plan, in
    plan order. *)
Lemma run_Ok_types s s' n m :
  normal_count (self s) = Some n → ev_count (self s) = Some m →
  CustomVehicleGenerator_run s = (Ok tt, s') →
  (λ tv, vtype tv.2) <$> spawned (calls_during s s')
  = shuffled_plan n m (random s).
Proof.
  intros Hn Hm Hrun.
  destruct (run_Ok_inv s s' n m Hn Hm Hrun)
    as [[Hnil ->]|(e & f & He & Hf & _ & Hcalls & _)].
  - by rewrite calls_during_same_heap, Hnil.
  - rewrite Hcalls, spawned_arrivals_types, sample_seq_length.
    by rewrite take_ge.
Qed.

(** C1.  For counts [n, m >= 0], a completed run spawns exactly [n + m]
    entities, [n] of type "normal" and [m] of type "ev", whatever the
    random generator and its state: the types spawned are a permutation of
    [n] copies of "normal" followed by [m] copies of "ev". *)
Theorem run_spawns_configured_multiset s s' n m :
  normal_count (self s) = Some n → ev_count (self s) = Some m →
  (0 ≤ n)%Z → (0 ≤ m)%Z →
  CustomVehicleGenerator_run s = (Ok tt, s') →
  let types := (λ tv, vtype tv.2) <$> spawned (calls_during s s') in
  Z.of_nat (length (spawned (calls_during s s'))) = (n + m)%Z
  ∧ Z.of_nat (length (filter (λ y, y = "normal") types)) = n
  ∧ Z.of_nat (length (filter (λ y, y = "ev") types)) = m
  ∧ types ≡ₚ replicate (Z.to_nat n) "normal" ++ replicate (Z.to_nat m) "ev".
Proof.
  intros Hn Hm Hn0 Hm0 Hrun. cbn zeta.
  pose proof (run_Ok_types s s' n m Hn Hm Hrun) as Htypes.
  destruct (shuffled_plan_spec n m (random s)) as [_ Hperm].
  destruct (unshuffled_counts n m) as (Hlen & Hnormal & Hev).
  rewrite <- (length_fmap (λ tv, vtype tv.2)), Htypes.
  rewrite !Hperm, Hlen, Hnormal, Hev. split_and!; try lia. done.
Qed.

(** ** Identifiers *)

Lemma shuffled_plan_length n m r :
  (0 ≤ n)%Z → (0 ≤ m)%Z →
  Z.of_nat (length (shuffled_plan n m r)) = (n + m)%Z.
Proof.
  intros Hn Hm. destruct (shuffled_plan_spec n m r) as [_ ->].
  destruct (unshuffled_counts n m) as (-> & _). lia.
Qed.

(** A completed run hands out the identifiers from the counter's value on. *)
Lemma run_Ok_vids s s' n m :
  normal_count (self s) = Some n → ev_count (self s) = Some m →
  (0 ≤ n)%Z → (0 ≤ m)%Z →
  CustomVehicleGenerator_run s = (Ok tt, s') →
  (λ tv, vid tv.2) <$> spawned (calls_during s s')
  = seqZ (next_id (self s)) (n + m).
Proof.
  intros Hn Hm Hn0 Hm0 Hrun.
  pose proof (shuffled_plan_length n m (random s) Hn0 Hm0) as Hlen.
  destruct (run_Ok_inv s s' n m Hn Hm Hrun)
    as [[Hnil ->]|(e & f & He & Hf & _ & Hcalls & _)].
  - rewrite calls_during_same_heap by done. rewrite Hnil in Hlen.
    simpl in Hlen. by rewrite <- Hlen.
  - rewrite Hcalls, spawned_arrivals_vids, sample_seq_length.
    rewrite Nat.min_id. by rewrite Hlen.
Qed.

Lemma init_attrs cfg (env_ p c l : loc) fo (no mo : option Z) g :
  CustomVehicleGenerator_init cfg env_ p c l fo no mo = Ok g →
  env g = env_ ∧ parking_res g = p ∧ charger_res g = c ∧ logger g = l
  ∧ next_id g = 0%Z
  ∧ interarrival_func g = Some (default (sample_interarrival cfg) fo)
  ∧ normal_count g = Some (default (NUM_NORMAL cfg) no)
  ∧ ev_count g = Some (default (NUM_EV cfg) mo).
Proof.
  unfold CustomVehicleGenerator_init, VehicleGenerator_init.
  intros [= <-]. by destruct fo.
Qed.

Lemma generate_vehicle_twice v1 v2 s e :
  env_of s = Some e →
  ∃ s1 s2,
    generate_vehicle v1 s = (Ok tt, s1)
    ∧ generate_vehicle v2 s1 = (Ok tt, s2)
    ∧ calls_during s s2
      = [Process (now e) (mk_vehicle (self s) (next_id (self s)) v1);
         Process (now e) (mk_vehicle (self s) (next_id (self s) + 1) v2)]
    ∧ env_of s2
      = Some {| now := now e;
                calls := calls e ++
                  [Process (now e) (mk_vehicle (self s) (next_id (self s)) v1);
                   Process (now e)
                     (mk_vehicle (self s) (next_id (self s) + 1) v2)] |}.
Proof.
  intros He. rewrite (generate_vehicle_step v1 s), He. cbn zeta.
  eexists. eexists. split; [reflexivity|].
  rewrite generate_vehicle_step. unfold env_of at 1. cbn [self heap].
  cbn [with_next_id env]. rewrite lookup_insert_eq. cbn zeta.
  split; [reflexivity|]. rewrite insert_insert_eq. cbn [now calls].
  rewrite <- app_assoc. split.
  - by eapply calls_during_insert.
  - unfold env_of. cbn [self heap with_next_id env].
    by rewrite lookup_insert_eq.
Qed.

(** C2.  On a freshly constructed scheduler with counts [n, m >= 0], the
    identifiers a completed run assigns are [0, 1, ..., n+m-1] in spawn
    order, hence pairwise distinct and increasing.  Every call of
    [generate_vehicle] advances the counter by exactly one, and two calls in
    a row outside [run] spawn entities with consecutive identifiers at one
    and the same clock value, with no timeout in between. *)
Theorem identifiers_consecutive :
  (∀ cfg (env_ p c l : loc) fo (no mo : option Z) s s',
     CustomVehicleGenerator_init cfg env_ p c l fo no mo = Ok (self s) →
     let n := default (NUM_NORMAL cfg) no in
     let m := default (NUM_EV cfg) mo in
     (0 ≤ n)%Z → (0 ≤ m)%Z →
     CustomVehicleGenerator_run s = (Ok tt, s') →
     let vids := (λ tv, vid tv.2) <$> spawned (calls_during s s') in
     vids = seqZ 0 (n + m) ∧ NoDup vids
     ∧ ∀ (i j : nat) a b, vids !! i = Some a → vids !! j = Some b →
         (i < j)%nat → (a < b)%Z)
  ∧ (∀ vtype s,
       next_id (self (generate_vehicle vtype s).2) = (next_id (self s) + 1)%Z)
  ∧ (∀ v1 v2 s e,
       env_of s = Some e →
       ∃ s1 s2,
         generate_vehicle v1 s = (Ok tt, s1)
         ∧ generate_vehicle v2 s1 = (Ok tt, s2)
         ∧ spawned (calls_during s s2)
           = [(now e, mk_vehicle (self s) (next_id (self s)) v1);
              (now e, mk_vehicle (self s) (next_id (self s) + 1) v2)]
         ∧ delays (calls_during s s2) = []
         ∧ now <$> env_of s2 = Some (now e)).
Proof.
  split_and!.
  - intros cfg env_ p c l fo no mo s s' Hinit n m Hn0 Hm0 Hrun. cbn zeta.
    apply init_attrs in Hinit as (_ & _ & _ & _ & Hid & _ & Hn & Hm).
    rewrite (run_Ok_vids s s' n m) by done. rewrite Hid.
    split_and!; [done|apply NoDup_seqZ|].
    intros i j a b [-> _]%lookup_seqZ [-> _]%lookup_seqZ Hij. lia.
  - intros vtype s. rewrite generate_vehicle_step. cbn zeta.
    by destruct (env_of s).
  - intros v1 v2 s e He.
    destruct (generate_vehicle_twice v1 v2 s e He)
      as (s1 & s2 & H1 & H2 & Hcalls & He2).
    exists s1, s2. by rewrite Hcalls, He2.
Qed.

(** ** Timing *)

Lemma accepted_Forall ds :
  Forall (λ d, (d <? 0)%float = false) ds → accepted ds = ds.
Proof.
  induction 1 as [|d ds Hd _ IH]; simpl; [done|]. by rewrite Hd, IH.
Qed.

(** With an environment and a sampler whose delays are all accepted, the
    run goes through the whole plan. *)
Lemma run_completes s e f n m :
  normal_count (self s) = Some n → ev_count (self s) = Some m →
  env_of s = Some e → interarrival_func (self s) = Some f →
  let plan := shuffled_plan n m (random s) in
  let ds := sample_seq f (length plan) (shuffled_state n m (random s)) in
  Forall (λ d, (d <? 0)%float = false) ds →
  ∃ s', CustomVehicleGenerator_run s = (Ok tt, s')
        ∧ calls_during s s'
          = arrivals (self s) (now e) (next_id (self s)) plan ds.
Proof.
  intros Hn Hm He Hf plan ds Hds. subst plan ds.
  rewrite (run_closed s e f n m) by done. cbn zeta.
  rewrite (accepted_Forall _ Hds).
  rewrite decide_True by apply sample_seq_length.
  eexists. split; [reflexivity|]. by eapply calls_during_insert.
Qed.

Lemma sample_seq_const f d (i : nat) : ∀ r,
  (∀ r', (f r').1 = d) → sample_seq f i r = replicate i d.
Proof.
  induction i as [|i IH]; intros r Hf; simpl; [done|].
  specialize (Hf r) as Hd. destruct (f r) as [d' r']; simpl in Hd.
  by rewrite Hd, IH.
Qed.

(** C3.  In a completed run the environment is asked for one timeout and
    then one process per planned entity, in plan order; the timeouts carry
    the delays the sampler returned, and the [k]-th entity is spawned when
    the clock reads the start time plus the first [k] of those delays,
    added in order.  With counts 3 and 2 and a sampler that always returns
    1.0, a run started at clock 0 completes and spawns at 1.0, 2.0, 3.0,
    4.0 and 5.0, however the plan was shuffled. *)
Theorem spawn_times_are_delay_sums :
  (∀ s s' e f n m,
     normal_count (self s) = Some n → ev_count (self s) = Some m →
     interarrival_func (self s) = Some f → env_of s = Some e →
     CustomVehicleGenerator_run s = (Ok tt, s') →
     let N := length (shuffled_plan n m (random s)) in
     let ds := sample_seq f N (shuffled_state n m (random s)) in
     calls_during s s'
     = arrivals (self s) (now e) (next_id (self s))
         (shuffled_plan n m (random s)) ds
     ∧ delays (calls_during s s') = ds
     ∧ length (spawned (calls_during s s')) = N
     ∧ ∀ i : nat, (i < N)%nat →
         (fst <$> spawned (calls_during s s')) !! i
         = Some (fold_left PrimFloat.add (take (S i) ds) (now e)))
  ∧ (∀ s e f,
       normal_count (self s) = Some 3%Z → ev_count (self s) = Some 2%Z →
       interarrival_func (self s) = Some f → (∀ r, (f r).1 = 1%float) →
       env_of s = Some e → now e = 0%float →
       ∃ s', CustomVehicleGenerator_run s = (Ok tt, s')
             ∧ fst <$> spawned (calls_during s s') = [1; 2; 3; 4; 5]%float).
Proof.
  split.
  - intros s s' e f n m Hn Hm Hf He Hrun. cbn zeta.
    destruct (run_Ok_inv s s' n m Hn Hm Hrun)
      as [[Hnil ->]|(e' & f' & He' & Hf' & _ & Hcalls & _)].
    + rewrite calls_during_same_heap by done.
      rewrite Hnil. split_and!; try done. simpl; lia.
    + simplify_eq. rewrite Hcalls. split; [done|].
      rewrite delays_arrivals, spawned_arrivals_length,
        spawned_arrivals_times.
      rewrite sample_seq_length, Nat.min_id.
      rewrite take_ge by (by rewrite sample_seq_length).
      split_and!; try done.
      intros i Hi. apply cumulative_lookup. by rewrite sample_seq_length.
  - intros s e f Hn Hm Hf Hone He Hnow.
    pose proof (shuffled_plan_length 3 2 (random s)) as Hlen.
    assert (length (shuffled_plan 3 2 (random s)) = 5%nat) as HN by lia.
    destruct (run_completes s e f 3 2 Hn Hm He Hf) as (s' & Hrun & Hcalls).
    { rewrite (sample_seq_const f 1) by done. rewrite HN.
      by repeat constructor. }
    exists s'. split; [done|].
    rewrite Hcalls, spawned_arrivals_times, (sample_seq_const f 1) by done.
    rewrite HN, Hnow.
    rewrite take_ge by (by rewrite length_replicate). reflexivity.
Qed.

(** ** A negative delay *)

Lemma accepted_first_negative ds : ∀ (j : nat) d,
  ds !! j = Some d → (d <? 0)%float = true →
  Forall (λ d', (d' <? 0)%float = false) (take j ds) →
  accepted ds = take j ds.
Proof.
  induction ds as [|d0 ds IH]; intros [|j] d Hj Hd Hpre; simplify_eq/=.
  - by rewrite Hd.
  - apply Forall_cons in Hpre as [-> Hpre]. f_equal. by eapply IH.
Qed.

(** C5.  When the sampler's [j+1]-th delay of a run is negative and the
    earlier ones are not, [env.timeout] raises [ValueError] and the run ends
    with that exception: the first [j] planned entities have been spawned
    and no other, the only timeouts are the [j] accepted delays, and the
    clock reads the start time plus those delays. *)
Theorem negative_delay_aborts_run s e f n m (j : nat) d :
  normal_count (self s) = Some n → ev_count (self s) = Some m →
  interarrival_func (self s) = Some f → env_of s = Some e →
  let plan := shuffled_plan n m (random s) in
  let ds := sample_seq f (length plan) (shuffled_state n m (random s)) in
  ds !! j = Some d → (d <? 0)%float = true →
  Forall (λ d', (d' <? 0)%float = false) (take j ds) →
  ∃ s',
    CustomVehicleGenerator_run s = (Raise (ValueError "Negative delay"), s')
    ∧ (λ tv, vtype tv.2) <$> spawned (calls_during s s') = take j plan
    ∧ length (spawned (calls_during s s')) = j
    ∧ delays (calls_during s s') = take j ds
    ∧ now <$> env_of s' = Some (fold_left PrimFloat.add (take j ds) (now e))
    ∧ next_id (self s') = (next_id (self s) + Z.of_nat j)%Z.
Proof.
  intros Hn Hm Hf He plan ds Hj Hd Hpre.
  pose proof (sample_seq_length f (length plan)
                (shuffled_state n m (random s))) as Hlen.
  pose proof (lookup_lt_Some _ _ _ Hj) as Hjlt.
  pose proof (accepted_first_negative ds j d Hj Hd Hpre) as Hacc.
  assert (length (take j ds) = j) as Htake by (rewrite length_take; lia).
  rewrite (run_closed s e f n m) by done. cbn zeta.
  fold plan. fold ds. fold ds in Hlen. rewrite Hacc, Htake.
  rewrite decide_False by lia.
  eexists. split; [reflexivity|].
  erewrite calls_during_insert; [|done|done|reflexivity].
  rewrite spawned_arrivals_types, spawned_arrivals_length, delays_arrivals.
  rewrite Htake. unfold env_of. cbn [self heap with_next_id env next_id].
  rewrite lookup_insert_eq. cbn [fmap option_fmap option_map now].
  split_and!; try done.
  - lia.
  - apply take_ge. rewrite Htake. lia.
Qed.

(** ** Nothing planned *)

Lemma shuffled_nothing r :
  shuffled_plan 0 0 r = [] ∧ shuffled_state 0 0 r = r.
Proof. done. Qed.

(** C6.  With both counts 0 the run completes in the state it started in:
    the random generator has not been asked for anything, so no delay was
    sampled, and the environment has received no call, so the process never
    suspended and the clock has not moved.  The sampler and the environment
    are not even looked up. *)
Theorem run_of_nothing_is_immediate s :
  normal_count (self s) = Some 0%Z → ev_count (self s) = Some 0%Z →
  CustomVehicleGenerator_run s = (Ok tt, s)
  ∧ spawned (calls_during s (CustomVehicleGenerator_run s).2) = []
  ∧ delays (calls_during s (CustomVehicleGenerator_run s).2) = [].
Proof.
  intros Hn Hm.
  assert (CustomVehicleGenerator_run s = (Ok tt, s)) as Hrun.
  { rewrite (run_unfold s 0 0) by done.
    destruct (shuffled_nothing (random s)) as [-> ->].
    rewrite run_loop_nil. by destruct s. }
  rewrite Hrun. cbn [snd]. by rewrite calls_during_same_heap.
Qed.

(** ** The two [run] methods *)

Lemma run_loop_same plan : ∀ s,
  CustomVehicleGenerator_run_loop plan s = VehicleGenerator_run_loop plan s.
Proof.
  induction plan as [|vtype rest IH]; intros s; [done|].
  cbn [CustomVehicleGenerator_run_loop VehicleGenerator_run_loop].
  proc_unfold.
  destruct (env_method "timeout" (env (self s)) s) as [[?|?] s0]; [|done].
  destruct (getattr "interarrival_func" interarrival_func s0) as [[f|?] s1];
    [|done].
  destruct (call_sampler f s1) as [[d|?] s2]; [|done].
  destruct (env_timeout (env (self s)) d s2) as [[ev|?] s3]; [|done].
  destruct (yield_timeout (env (self s)) ev s3) as [[?|?] s4]; [|done].
  destruct (generate_vehicle vtype s4) as [[?|?] s5]; [|done].
  apply IH.
Qed.

(** C7.  [CustomVehicleGenerator.run] and [VehicleGenerator.run] are the
    same computation: from any state they build the same plan, and they
    reach the same result and the same final state, hence the same timeouts
    and the same spawned entities. *)
Theorem custom_run_same_as_base_run :
  (∀ s, CustomVehicleGenerator_vehicle_types s = VehicleGenerator_vehicle_types s)
  ∧ (∀ plan s,
       CustomVehicleGenerator_run_loop plan s = VehicleGenerator_run_loop plan s)
  ∧ (∀ s, CustomVehicleGenerator_run s = VehicleGenerator_run s).
Proof.
  split_and!.
  - done.
  - intros plan s. apply run_loop_same.
  - intros s. unfold CustomVehicleGenerator_run, VehicleGenerator_run.
    proc_unfold.
    change (VehicleGenerator_vehicle_types s)
      with (CustomVehicleGenerator_vehicle_types s).
    destruct (CustomVehicleGenerator_vehicle_types s) as [[plan|?] s0];
      [|done].
    apply run_loop_same.
Qed.

(** ** The base class on its own *)

(** C8.  An instance that only [VehicleGenerator.__init__] has set up lacks
    [normal_count], [ev_count] and [interarrival_func]; its [run] raises
    [AttributeError] on the first of them, whatever the random state and the
    heap, and changes nothing. *)
Theorem base_instance_cannot_run (env_ p c l : loc) :
  ∃ g,
    VehicleGenerator_init env_ p c l = Ok g
    ∧ normal_count g = None ∧ ev_count g = None ∧ interarrival_func g = None
    ∧ ∀ r (h : gmap loc Obj),
        VehicleGenerator_run {| self := g; random := r; heap := h |}
        = (Raise (AttributeError "normal_count"),
           {| self := g; random := r; heap := h |}).
Proof. eexists. by split_and!. Qed.

(** ** What the scheduler touches *)

Lemma with_next_id_next_id g : with_next_id g (next_id g) = g.
Proof. by destruct g. Qed.

Lemma sim_eta s :
  {| self := with_next_id (self s) (next_id (self s));
     random := random s; heap := heap s |} = s.
Proof. rewrite with_next_id_next_id. by destruct s. Qed.

Lemma generate_vehicle_effect_eq vtype s :
  generate_vehicle vtype s
  = apply_effect (generate_vehicle_effect vtype (self s) (random s) (env_of s)) s.
Proof.
  rewrite generate_vehicle_step. unfold generate_vehicle_effect, apply_effect.
  by destruct (env_of s).
Qed.

Lemma run_effect_eq s :
  CustomVehicleGenerator_run s
  = apply_effect (run_effect (self s) (random s) (env_of s)) s.
Proof.
  unfold run_effect.
  destruct (normal_count (self s)) as [n|] eqn:Hn; last first.
  { unfold CustomVehicleGenerator_run. proc_unfold.
    rewrite vehicle_types_no_normal_count by done.
    unfold apply_effect. by rewrite sim_eta. }
  destruct (ev_count (self s)) as [m|] eqn:Hm; last first.
  { unfold CustomVehicleGenerator_run, CustomVehicleGenerator_vehicle_types,
      getattr.
    proc_unfold. rewrite Hn; cbn beta iota. rewrite Hm; cbn beta iota.
    unfold apply_effect. by rewrite sim_eta. }
  cbn zeta. destruct (shuffled_plan n m (random s)) as [|vtype rest] eqn:Hplan.
  { rewrite (run_unfold s n m), Hplan, run_loop_nil by done.
    unfold apply_effect. by rewrite with_next_id_next_id. }
  destruct (env_of s) as [e|] eqn:He; last first.
  { rewrite (run_unfold s n m), Hplan, run_loop_no_env by done.
    unfold apply_effect. by rewrite with_next_id_next_id. }
  destruct (interarrival_func (self s)) as [f|] eqn:Hf; last first.
  { rewrite (run_unfold s n m), Hplan, (run_loop_no_sampler _ _ _ e) by done.
    unfold apply_effect. by rewrite with_next_id_next_id. }
  rewrite (run_closed s e f n m), Hplan by done.
  unfold apply_effect. by rewrite He.
Qed.

Lemma exec_op_effect o s :
  exec_op o s = apply_effect (op_effect o (self s) (random s) (env_of s)) s.
Proof.
  destruct o as [vtype|]; [apply generate_vehicle_effect_eq|apply run_effect_eq].
Qed.

Lemma op_effect_handles o g r (oe : option Environment)
    (res : Result unit) k r' t' (tr : list Call) :
  op_effect o g r oe = (res, k, r', Some (t', tr)) →
  ∀ t v, (t, v) ∈ spawned tr → passes_handles g v.
Proof.
  destruct o as [vtype|]; simpl.
  - unfold generate_vehicle_effect. destruct oe as [e|]; intros [=]; subst.
    intros t v [[=]|[]%elem_of_nil]%elem_of_cons. by subst.
  - unfold run_effect.
    destruct (normal_count g) as [n|], (ev_count g) as [m|]; try done.
    cbn zeta.
    destruct (shuffled_plan n m r) as [|vtype rest] eqn:Hplan; [done|].
    destruct oe as [e|]; [|done].
    destruct (interarrival_func g) as [f|]; [|done].
    rewrite <- Hplan. intros [= _ _ _ _ <-]. intros t v Hin.
    by eapply spawned_arrivals_handles.
Qed.

Lemma env_of_poke l (o : Obj) s :
  l ≠ env (self s) → env_of (poke l o s) = env_of s.
Proof. intros Hl. unfold env_of, poke; simpl. by rewrite lookup_insert_ne. Qed.

Lemma apply_effect_poke (eff : Effect) s l (o : Obj) :
  l ≠ env (self s) →
  apply_effect eff (poke l o s)
  = ((apply_effect eff s).1, poke l o (apply_effect eff s).2).
Proof.
  intros Hl. destruct eff as [[[res k] r'] upd]. unfold apply_effect.
  rewrite env_of_poke by done. unfold poke; simpl.
  destruct upd as [[t' tr]|], (env_of s) as [e|]; try done.
  by rewrite insert_insert_ne.
Qed.

Lemma environment_eta e : {| now := now e; calls := calls e ++ [] |} = e.
Proof. destruct e; simpl. by rewrite app_nil_r. Qed.

(** One operation changes the counter and the environment object, and
    nothing else; it neither reads nor writes any other object. *)
Lemma exec_op_inv o s :
  let s' := (exec_op o s).2 in
  (∃ k, self s' = with_next_id (self s) k)
  ∧ (∀ l, l ≠ env (self s) → heap s' !! l = heap s !! l)
  ∧ (∀ e, env_of s = Some e →
       ∃ t' tr, env_of s' = Some {| now := t'; calls := calls e ++ tr |}
                ∧ ∀ t v, (t, v) ∈ spawned tr → passes_handles (self s) v)
  ∧ (∀ l (x : Obj), l ≠ env (self s) →
       exec_op o (poke l x s) = ((exec_op o s).1, poke l x s')).
Proof.
  cbn zeta. rewrite exec_op_effect.
  pose proof (op_effect_handles o (self s) (random s) (env_of s)) as Hh.
  destruct (op_effect o (self s) (random s) (env_of s))
    as [[[res k] r'] upd] eqn:Heff.
  split_and!.
  - by exists k.
  - intros l Hl. simpl. destruct upd as [[t' tr]|], (env_of s); try done.
    by rewrite lookup_insert_ne.
  - intros e He. simpl. rewrite He. destruct upd as [[t' tr]|].
    + exists t', tr. split; [|by eapply Hh].
      unfold env_of; simpl. by rewrite lookup_insert_eq.
    + exists (now e), []. split; [|by intros ?? ?%elem_of_nil].
      rewrite environment_eta. unfold env_of in *; simpl. done.
  - intros l x Hl. rewrite exec_op_effect.
    change (self (poke l x s)) with (self s).
    change (random (poke l x s)) with (random s).
    rewrite env_of_poke, Heff by done. by apply apply_effect_poke.
Qed.


Lemma exec_ops_inv (ops : list Op) : ∀ s,
  let s' := exec_ops ops s in
  (∃ k, self s' = with_next_id (self s) k)
  ∧ (∀ l, l ≠ env (self s) → heap s' !! l = heap s !! l)
  ∧ (∀ e, env_of s = Some e →
       ∃ t' tr, env_of s' = Some {| now := t'; calls := calls e ++ tr |}
                ∧ ∀ t v, (t, v) ∈ spawned tr → passes_handles (self s) v)
  ∧ (∀ l (x : Obj), l ≠ env (self s) →
       exec_ops ops (poke l x s) = poke l x s').
Proof.
  induction ops as [|o ops IH]; intros s; cbn zeta.
  { split_and!; try done.
    - exists (next_id (self s)). by rewrite with_next_id_next_id.
    - intros e He. exists (now e), []. rewrite environment_eta.
      split; [done|]. by intros ?? ?%elem_of_nil. }
  cbn [exec_ops].
  destruct (exec_op_inv o s) as ([k1 Hself1] & Hframe1 & Henv1 & Hpoke1).
  set (s1 := (exec_op o s).2) in *.
  assert (env (self s1) = env (self s)) as Hsame by by rewrite Hself1.
  destruct (IH s1) as ([k2 Hself2] & Hframe2 & Henv2 & Hpoke2).
  split_and!.
  - exists k2. by rewrite Hself2, Hself1.
  - intros l Hl. rewrite Hframe2 by by rewrite Hsame. by apply Hframe1.
  - intros e He. destruct (Henv1 e He) as (t1 & tr1 & He1 & Hh1).
    destruct (Henv2 _ He1) as (t2 & tr2 & He2 & Hh2). cbn [calls] in He2.
    exists t2, (tr1 ++ tr2). rewrite app_assoc. split; [done|].
    intros t v. unfold spawned. rewrite omap_app.
    intros [?|Hin]%elem_of_app; [by eapply Hh1|].
    apply Hh2 in Hin. by rewrite Hself1 in Hin.
  - intros l x Hl. rewrite Hpoke1 by done. cbn [snd].
    apply Hpoke2. by rewrite Hsame.
Qed.

(** C9.  After any sequence of [generate_vehicle] and [run] calls, whether
    they completed or raised, the scheduler's attributes other than
    [next_id] are what they were, every entity spawned meanwhile was given
    the scheduler's own environment, pools and event sink, every object on
    the heap other than the environment is unchanged, and replacing such an
    object beforehand changes nothing in what the scheduler does: the pools
    and the sink are neither written nor read. *)
Theorem scheduler_only_advances_counter (ops : list Op) s :
  let s' := exec_ops ops s in
  (env (self s') = env (self s)
   ∧ parking_res (self s') = parking_res (self s)
   ∧ charger_res (self s') = charger_res (self s)
   ∧ logger (self s') = logger (self s)
   ∧ interarrival_func (self s') = interarrival_func (self s)
   ∧ normal_count (self s') = normal_count (self s)
   ∧ ev_count (self s') = ev_count (self s))
  ∧ (∀ t v, (t, v) ∈ spawned (calls_during s s') → passes_handles (self s) v)
  ∧ (∀ l, l ≠ env (self s) → heap s' !! l = heap s !! l)
  ∧ (∀ l (x : Obj), l ≠ env (self s) →
       exec_ops ops (poke l x s) = poke l x s').
Proof.
  cbn zeta.
  destruct (exec_ops_inv ops s) as ([k Hself] & Hframe & Henv & Hpoke).
  split_and!; try (by rewrite Hself); try done.
  intros t v. unfold calls_during.
  destruct (env_of s) as [e|] eqn:He; [|by intros ?%elem_of_nil].
  destruct (Henv e eq_refl) as (t' & tr & -> & Hh). cbn [calls].
  rewrite drop_app_length. apply Hh.
Qed.

(** ** Reproducibility *)

Lemma vehicle_types_result s :
  (CustomVehicleGenerator_vehicle_types s).1
  = match normal_count (self s), ev_count (self s) with
    | Some n, Some m => Ok (shuffled_plan n m (random s))
    | None, _ => Raise (AttributeError "normal_count")
    | Some _, None => Raise (AttributeError "ev_count")
    end.
Proof.
  destruct (normal_count (self s)) as [n|] eqn:Hn; last first.
  { by rewrite vehicle_types_no_normal_count. }
  destruct (ev_count (self s)) as [m|] eqn:Hm.
  { by rewrite (vehicle_types_closed s n m). }
  unfold CustomVehicleGenerator_vehicle_types, getattr. proc_unfold.
  rewrite Hn; cbn beta iota. by rewrite Hm.
Qed.

Lemma calls_during_apply_effect (eff : Effect) s :
  calls_during s (apply_effect eff s).2
  = match eff.2, env_of s with
    | Some (_, tr), Some _ => tr
    | _, _ => []
    end.
Proof.
  destruct eff as [[[res k] r'] upd]. unfold apply_effect. cbn [snd].
  destruct upd as [[t' tr]|], (env_of s) as [e|] eqn:He;
    try by rewrite calls_during_same_heap.
  by eapply calls_during_insert.
Qed.

(** What a run shows of its plan and of its delays depends on the counts,
    the sampler and the random state, and on nothing else. *)
Lemma run_effect_observable g1 g2 r e1 e2 :
  normal_count g1 = normal_count g2 → ev_count g1 = ev_count g2 →
  interarrival_func g1 = interarrival_func g2 →
  let eff1 := run_effect g1 r (Some e1) in
  let eff2 := run_effect g2 r (Some e2) in
  eff1.1.1.1 = eff2.1.1.1
  ∧ eff1.1.2 = eff2.1.2
  ∧ delays (default [] (snd <$> eff1.2)) = delays (default [] (snd <$> eff2.2))
  ∧ (λ tv, vtype tv.2) <$> spawned (default [] (snd <$> eff1.2))
    = (λ tv, vtype tv.2) <$> spawned (default [] (snd <$> eff2.2)).
Proof.
  intros Hn Hm Hf. unfold run_effect. rewrite Hn, Hm, Hf.
  destruct (normal_count g2) as [n|], (ev_count g2) as [m|]; try done.
  cbn zeta.
  destruct (shuffled_plan n m r) as [|vtype rest] eqn:Hplan; [done|].
  destruct (interarrival_func g2) as [f|]; [|done].
  rewrite <- Hplan. cbn [fst snd fmap option_fmap option_map default].
  unfold id. by rewrite !delays_arrivals, !spawned_arrivals_types.
Qed.

(** C10.  Two schedulers with the same counts and the same sampler, each on
    an environment of its own and started from the same random state, build
    the same plan, end with the same result, suspend on the same sequence
    of delays, spawn the same sequence of types and leave the random
    generator in the same state; the clocks, the counters and the handles
    they hold play no part. *)
Theorem same_seed_same_plan_and_delays s1 s2 e1 e2 :
  normal_count (self s1) = normal_count (self s2) →
  ev_count (self s1) = ev_count (self s2) →
  interarrival_func (self s1) = interarrival_func (self s2) →
  random s1 = random s2 →
  env_of s1 = Some e1 → env_of s2 = Some e2 →
  let s1' := (CustomVehicleGenerator_run s1).2 in
  let s2' := (CustomVehicleGenerator_run s2).2 in
  (CustomVehicleGenerator_vehicle_types s1).1
  = (CustomVehicleGenerator_vehicle_types s2).1
  ∧ (CustomVehicleGenerator_run s1).1 = (CustomVehicleGenerator_run s2).1
  ∧ delays (calls_during s1 s1') = delays (calls_during s2 s2')
  ∧ (λ tv, vtype tv.2) <$> spawned (calls_during s1 s1')
    = (λ tv, vtype tv.2) <$> spawned (calls_during s2 s2')
  ∧ random s1' = random s2'.
Proof.
  intros Hn Hm Hf Hr He1 He2. cbn zeta.
  split; [by rewrite !vehicle_types_result, Hn, Hm, Hr|].
  rewrite !run_effect_eq, !calls_during_apply_effect, He1, He2, Hr.
  destruct (run_effect_observable (self s1) (self s2) (random s2) e1 e2
              Hn Hm Hf) as (Hres & Hrand & Hdelays & Htypes).
  destruct (run_effect (self s1) (random s2) (Some e1))
    as [[[res1 k1] r1] upd1].
  destruct (run_effect (self s2) (random s2) (Some e2))
    as [[[res2 k2] r2] upd2].
  cbn [fst snd apply_effect random] in *.
  by destruct upd1 as [[??]|], upd2 as [[??]|].
Qed.

(** ** Counts below zero *)

Lemma unshuffled_negative_normal n m :
  (n < 0)%Z → filter (λ y, y = "normal") (unshuffled n m) = [].
Proof.
  intros Hn. unfold unshuffled. rewrite Z2Nat.nonpos by lia. simpl.
  by apply filter_replicate_ne.
Qed.

Lemma unshuffled_negative_ev n m :
  (m < 0)%Z → filter (λ y, y = "ev") (unshuffled n m) = [].
Proof.
  intros Hm. unfold unshuffled. rewrite (Z2Nat.nonpos m) by lia. simpl.
  rewrite app_nil_r. by apply filter_replicate_ne.
Qed.

(** C4, as the code has it.  A negative count is not rejected: the
    constructor returns the instance with both counts stored as given, and
    building the plan at run time raises nothing either; a negative count
    then plans no entity of its type. *)
Theorem negative_counts_are_accepted cfg (env_ p c l : loc) fo n m :
  (n < 0 ∨ m < 0)%Z →
  ∃ g,
    CustomVehicleGenerator_init cfg env_ p c l fo (Some n) (Some m) = Ok g
    ∧ normal_count g = Some n ∧ ev_count g = Some m
    ∧ ∀ r (h : gmap loc Obj),
        ∃ plan,
          (CustomVehicleGenerator_vehicle_types
             {| self := g; random := r; heap := h |}).1 = Ok plan
          ∧ plan ≡ₚ replicate (Z.to_nat n) "normal" ++ replicate (Z.to_nat m) "ev"
          ∧ ((n < 0)%Z → filter (λ y, y = "normal") plan = [])
          ∧ ((m < 0)%Z → filter (λ y, y = "ev") plan = []).
Proof.
  intros Hneg. eexists. split; [reflexivity|].
  split; [done|]. split; [done|].
  intros r h. exists (shuffled_plan n m r).
  destruct (shuffled_plan_spec n m r) as [_ Hperm].
  split; [by rewrite vehicle_types_result|]. split; [done|]. split.
  - intros Hn. apply Permutation_nil_r. rewrite Hperm.
    by rewrite unshuffled_negative_normal.
  - intros Hm. apply Permutation_nil_r. rewrite Hperm.
    by rewrite unshuffled_negative_ev.
Qed.

End Properties.


(** * Further properties of the two classes *)

Section MoreProperties.
Context {Rand : Type} `{RandomGen Rand}.
Implicit Types (s : @Sim Rand) (g : @VehicleGenerator Rand) (f : @Sampler Rand).
Implicit Types (r : Rand) (e : Environment) (plan rest : list string).
Implicit Types (vtype : string) (n m k : Z) (d t : float) (ds : list float).
Implicit Types (cfg : @Config Rand) (l : loc).

(** ** Direct calls of [generate_vehicle] *)

Lemma injections_with_next_id g (i : Z) (vtypes : list string) : ∀ t k,
  injections (with_next_id g i) t k vtypes = injections g t k vtypes.
Proof. induction vtypes as [|vtype rest IH]; intros t k; simpl; by rewrite ?IH. Qed.

Lemma generate_each_closed (vtypes : list string) : ∀ s e,
  env_of s = Some e →
  generate_each vtypes s =
    (Ok tt,
     {| self := with_next_id (self s)
                  (next_id (self s) + Z.of_nat (length vtypes));
        random := random s;
        heap := <[env (self s) :=
                    OEnvironment
                      {| now := now e;
                         calls := calls e ++
                           injections (self s) (now e) (next_id (self s))
                             vtypes |}]>
                  (heap s) |}).
Proof.
  induction vtypes as [|vtype rest IH]; intros s e He.
  { simpl. by rewrite sim_same. }
  cbn [generate_each]. unfold mbind, proc_mbind, proc_bind.
  rewrite generate_vehicle_step, He. cbn beta iota zeta.
  set (s1 := Build_Sim _ _ _).
  assert (env_of s1
          = Some (Build_Environment (now e)
                    (calls e ++
                       [Process (now e)
                          (mk_vehicle (self s) (next_id (self s)) vtype)])))
    as He1.
  { unfold env_of, s1; simpl. by rewrite lookup_insert_eq. }
  rewrite (IH s1 _ He1). subst s1.
  cbn [self random heap length now calls injections with_next_id env next_id].
  f_equal. f_equal.
  - unfold with_next_id; simpl. f_equal. lia.
  - rewrite insert_insert_eq, <- app_assoc.
    change (Build_VehicleGenerator _ _ _ _ _ _ _ _)
      with (with_next_id (self s) (next_id (self s) + 1)).
    by rewrite injections_with_next_id.
Qed.

Lemma spawned_injections g (vtypes : list string) : ∀ t k,
  (λ tv, vtype tv.2) <$> spawned (injections g t k vtypes) = vtypes
  ∧ (λ tv, vid tv.2) <$> spawned (injections g t k vtypes)
    = seqZ k (Z.of_nat (length vtypes))
  ∧ fst <$> spawned (injections g t k vtypes) = replicate (length vtypes) t
  ∧ delays (injections g t k vtypes) = [].
Proof.
  induction vtypes as [|vt rest IH]; intros t k; [done|].
  destruct (IH t (k + 1)%Z) as (IH1 & IH2 & IH3 & IH4).
  change (spawned (injections g t k (vt :: rest)))
    with ((t, mk_vehicle g k vt) :: spawned (injections g t (k + 1) rest)).
  change (delays (injections g t k (vt :: rest)))
    with (delays (injections g t (k + 1) rest)).
  rewrite !fmap_cons, IH1, IH2, IH3, IH4.
  cbn [length]. rewrite Nat2Z.inj_succ, (seqZ_cons k) by lia.
  cbn [fst snd vid vtype mk_vehicle replicate].
  split_and!; try done. do 2 f_equal; lia.
Qed.

(** X1.  Injecting entities one after the other on a scheduler that holds
    an environment always succeeds: the entities have the given types in
    the given order, consecutive identifiers from the counter's value on and
    one and the same registration time, the current clock.  No timeout is
    created, the clock and the random generator are left alone, and the
    counter ends advanced by the number of entities. *)
Theorem direct_spawns_share_the_clock (vtypes : list string) s e :
  env_of s = Some e →
  ∃ s',
    generate_each vtypes s = (Ok tt, s')
    ∧ (λ tv, vtype tv.2) <$> spawned (calls_during s s') = vtypes
    ∧ (λ tv, vid tv.2) <$> spawned (calls_during s s')
      = seqZ (next_id (self s)) (Z.of_nat (length vtypes))
    ∧ fst <$> spawned (calls_during s s') = replicate (length vtypes) (now e)
    ∧ delays (calls_during s s') = []
    ∧ now <$> env_of s' = Some (now e)
    ∧ random s' = random s
    ∧ next_id (self s') = (next_id (self s) + Z.of_nat (length vtypes))%Z.
Proof.
  intros He. rewrite (generate_each_closed vtypes s e He).
  eexists. split; [reflexivity|].
  erewrite calls_during_insert; [|done|done|reflexivity].
  destruct (spawned_injections (self s) vtypes (now e) (next_id (self s)))
    as (-> & -> & -> & ->).
  unfold env_of. cbn [self heap with_next_id env next_id random].
  by rewrite lookup_insert_eq.
Qed.

(** ** A scheduler without an environment *)

(** X2.  When the [env] attribute does not hold an environment,
    [generate_vehicle] raises [AttributeError] only after it has advanced
    the counter, so the identifier is used up although nothing was spawned;
    and [run] with a non-empty plan raises [AttributeError] after the
    shuffle and before the sampler is called, with the counter untouched. *)
Theorem without_environment s :
  env_of s = None →
  (∀ vtype,
     generate_vehicle vtype s
     = (Raise (AttributeError "process"),
        {| self := with_next_id (self s) (next_id (self s) + 1);
           random := random s; heap := heap s |}))
  ∧ (∀ n m,
       normal_count (self s) = Some n → ev_count (self s) = Some m →
       shuffled_plan n m (random s) ≠ [] →
       CustomVehicleGenerator_run s
       = (Raise (AttributeError "timeout"),
          {| self := self s; random := shuffled_state n m (random s);
             heap := heap s |})).
Proof.
  intros He. split.
  - intros vtype. by rewrite generate_vehicle_step, He.
  - intros n m Hn Hm Hplan. rewrite (run_unfold s n m) by done.
    destruct (shuffled_plan n m (random s)) as [|vtype rest]; [done|].
    by rewrite run_loop_no_env.
Qed.

(** ** Identifiers over the life of a scheduler *)

Lemma accepted_sample_length f (i : nat) r :
  (length (accepted (sample_seq f i r)) ≤ i)%nat.
Proof.
  rewrite <- (sample_seq_length f i r) at 2.
  generalize (sample_seq f i r). intros ds.
  induction ds as [|d ds IH]; simpl; [done|].
  destruct (d <? 0)%float; simpl; lia.
Qed.

Lemma op_effect_ids (o : Op) g r e (res : Result unit) k r'
    (upd : option (float * list Call)) :
  op_effect o g r (Some e) = (res, k, r', upd) →
  match upd with
  | Some (_, tr) =>
      (λ tv, vid tv.2) <$> spawned tr
      = seqZ (next_id g) (Z.of_nat (length (spawned tr)))
      ∧ k = (next_id g + Z.of_nat (length (spawned tr)))%Z
  | None => k = next_id g
  end.
Proof.
  destruct o as [vt|]; simpl.
  - intros [= <- <- <- <-]. split; [|done].
    simpl. rewrite (seqZ_cons (next_id g)) by done.
    by rewrite seqZ_nil by done.
  - unfold run_effect.
    destruct (normal_count g) as [n|]; [|by intros [= <- <- <- <-]].
    destruct (ev_count g) as [m|]; [|by intros [= <- <- <- <-]].
    cbn zeta.
    destruct (shuffled_plan n m r) as [|vt rest] eqn:Hplan;
      [by intros [= <- <- <- <-]|].
    destruct (interarrival_func g) as [f|]; [|by intros [= <- <- <- <-]].
    rewrite <- Hplan. intros [= _ <- _ <-].
    pose proof (accepted_sample_length f (length (shuffled_plan n m r))
                  (shuffled_state n m r)) as Hle.
    rewrite spawned_arrivals_vids, spawned_arrivals_length.
    by rewrite Nat.min_r.
Qed.

Lemma op_effect_counter (o : Op) g r (oe : option Environment)
    (res : Result unit) k r' (upd : option (float * list Call)) :
  op_effect o g r oe = (res, k, r', upd) → (next_id g ≤ k)%Z.
Proof.
  destruct o as [vt|]; simpl.
  - unfold generate_vehicle_effect.
    destruct oe; intros [= <- <- <- <-]; lia.
  - unfold run_effect.
    destruct (normal_count g) as [n|]; [|intros [= <- <- <- <-]; lia].
    destruct (ev_count g) as [m|]; [|intros [= <- <- <- <-]; lia].
    cbn zeta.
    destruct (shuffled_plan n m r) as [|vt rest];
      [intros [= <- <- <- <-]; lia|].
    destruct oe as [e|]; [|intros [= <- <- <- <-]; lia].
    destruct (interarrival_func g) as [f|]; intros [= _ <- _ _]; lia.
Qed.

Lemma exec_op_ids (o : Op) s e :
  env_of s = Some e →
  let s1 := (exec_op o s).2 in
  ∃ t1 (tr1 : list Call),
    env_of s1 = Some {| now := t1; calls := calls e ++ tr1 |}
    ∧ (λ tv, vid tv.2) <$> spawned tr1
      = seqZ (next_id (self s)) (Z.of_nat (length (spawned tr1)))
    ∧ next_id (self s1)
      = (next_id (self s) + Z.of_nat (length (spawned tr1)))%Z.
Proof.
  intros He. cbn zeta. rewrite exec_op_effect, He.
  pose proof (op_effect_ids o (self s) (random s) e) as Hids.
  destruct (op_effect o (self s) (random s) (Some e))
    as [[[res k] r'] upd].
  specialize (Hids res k r' upd eq_refl).
  unfold apply_effect. cbn [snd]. rewrite He.
  destruct upd as [[t' tr]|].
  - destruct Hids as [Hvids ->]. exists t', tr. split_and!; try done.
    unfold env_of. cbn [self heap with_next_id env].
    by rewrite lookup_insert_eq.
  - subst k. exists (now e), []. rewrite environment_eta.
    split_and!; try done. simpl. lia.
Qed.

Lemma exec_ops_ids (ops : list Op) : ∀ s e,
  env_of s = Some e →
  let s' := exec_ops ops s in
  ∃ t' (tr : list Call),
    env_of s' = Some {| now := t'; calls := calls e ++ tr |}
    ∧ (λ tv, vid tv.2) <$> spawned tr
      = seqZ (next_id (self s)) (Z.of_nat (length (spawned tr)))
    ∧ next_id (self s')
      = (next_id (self s) + Z.of_nat (length (spawned tr)))%Z.
Proof.
  induction ops as [|o ops IH]; intros s e He; cbn zeta.
  { exists (now e), []. rewrite environment_eta. split_and!; try done.
    simpl. lia. }
  cbn [exec_ops].
  destruct (exec_op_ids o s e He) as (t1 & tr1 & He1 & Hv1 & Hk1).
  destruct (IH _ _ He1) as (t2 & tr2 & He2 & Hv2 & Hk2).
  cbn [calls] in He2. exists t2, (tr1 ++ tr2).
  rewrite app_assoc. split; [done|].
  unfold spawned in *. rewrite omap_app, fmap_app, length_app, Hv1, Hv2.
  rewrite Hk2, Hk1, Nat2Z.inj_add. split; [|lia].
  by rewrite seqZ_app by lia.
Qed.

Lemma exec_ops_counter (ops : list Op) : ∀ s,
  (next_id (self s) ≤ next_id (self (exec_ops ops s)))%Z.
Proof.
  induction ops as [|o ops IH]; intros s; [done|]. cbn [exec_ops].
  etrans; [|apply IH]. rewrite exec_op_effect.
  pose proof (op_effect_counter o (self s) (random s) (env_of s)) as Hk.
  destruct (op_effect o (self s) (random s) (env_of s))
    as [[[res k] r'] upd].
  by apply (Hk res k r' upd).
Qed.

(** X3.  Over any sequence of [generate_vehicle] and [run] calls, completed
    or not, the counter never goes down and no identifier is handed out
    twice.  On a scheduler that holds an environment the entities spawned
    by the whole sequence carry consecutive identifiers from the counter's
    first value on, and the counter ends at the first value plus their
    number: a later run continues where the earlier one stopped. *)
Theorem identifiers_never_reused (ops : list Op) s :
  let s' := exec_ops ops s in
  let vids := (λ tv, vid tv.2) <$> spawned (calls_during s s') in
  (next_id (self s) ≤ next_id (self s'))%Z
  ∧ NoDup vids
  ∧ (∀ e, env_of s = Some e →
       vids = seqZ (next_id (self s)) (Z.of_nat (length vids))
       ∧ next_id (self s')
         = (next_id (self s) + Z.of_nat (length vids))%Z).
Proof.
  cbn zeta. split; [apply exec_ops_counter|].
  unfold calls_during. destruct (env_of s) as [e|] eqn:He; last first.
  { split; [apply NoDup_nil_2|done]. }
  destruct (exec_ops_ids ops s e He) as (t' & tr & -> & Hv & Hk).
  cbn [calls]. rewrite drop_app_length, length_fmap.
  split; [rewrite Hv; apply NoDup_seqZ|].
  intros ? [= <-]. done.
Qed.

(** ** How a run ends *)



(** X5.  The random generator is used for the shuffle first and then by
    the sampler alone, once per planned entity: after a completed run it is
    in the state that as many sampler calls as there are planned entities
    leave behind the shuffle, and after a run that stopped at its [j+1]-th
    delay the sampler has been called [j+1] times and no more. *)
Theorem sampler_is_called_once_per_entity s e f n m :
  normal_count (self s) = Some n → ev_count (self s) = Some m →
  env_of s = Some e → interarrival_func (self s) = Some f →
  let N := length (shuffled_plan n m (random s)) in
  let r1 := shuffled_state n m (random s) in
  let ds := sample_seq f N r1 in
  (Forall (λ d, (d <? 0)%float = false) ds →
   random (CustomVehicleGenerator_run s).2 = sample_state f N r1)
  ∧ (∀ (j : nat) d,
       ds !! j = Some d → (d <? 0)%float = true →
       Forall (λ d', (d' <? 0)%float = false) (take j ds) →
       random (CustomVehicleGenerator_run s).2 = sample_state f (S j) r1).
Proof.
  intros Hn Hm He Hf. cbn zeta.
  rewrite (run_closed s e f n m) by done. cbn [snd random].
  pose proof (sample_seq_length f (length (shuffled_plan n m (random s)))
                (shuffled_state n m (random s))) as Hlen.
  set (ds := sample_seq _ _ _) in *. split.
  - intros Hall. rewrite (accepted_Forall ds Hall), Hlen.
    by rewrite Nat.min_r by lia.
  - intros j d Hj Hd Hpre.
    pose proof (lookup_lt_Some _ _ _ Hj) as Hjlt.
    rewrite (accepted_first_negative ds j d Hj Hd Hpre).
    rewrite length_take, (Nat.min_l j) by lia.
    by rewrite Nat.min_l by lia.
Qed.

Lemma cumulative_last ds : ∀ t,
  ds ≠ [] → last (cumulative t ds) = Some (fold_left PrimFloat.add ds t).
Proof.
  induction ds as [|d ds IH]; intros t Hne; [done|].
  destruct ds as [|d' ds]; [done|].
  change (cumulative t (d :: d' :: ds))
    with ((t + d)%float :: cumulative (t + d) (d' :: ds)).
  change (cumulative (t + d) (d' :: ds))
    with (((t + d) + d')%float :: cumulative ((t + d) + d') ds).
  rewrite last_cons_cons.
  change (((t + d) + d')%float :: cumulative ((t + d) + d') ds)
    with (cumulative (t + d) (d' :: ds)).
  by rewrite IH.
Qed.

(** X6.  A completed run returns as soon as the last entity is spawned:
    the clock it leaves is the start time plus all the sampled delays, which
    is the registration time of the last entity, and the counter has
    advanced by the length of the plan. *)
Theorem run_ends_at_the_last_spawn s s' e f n m :
  normal_count (self s) = Some n → ev_count (self s) = Some m →
  env_of s = Some e → interarrival_func (self s) = Some f →
  CustomVehicleGenerator_run s = (Ok tt, s') →
  let N := length (shuffled_plan n m (random s)) in
  let ds := sample_seq f N (shuffled_state n m (random s)) in
  now <$> env_of s' = Some (fold_left PrimFloat.add ds (now e))
  ∧ next_id (self s') = (next_id (self s) + Z.of_nat N)%Z
  ∧ ((0 < N)%nat →
     last (fst <$> spawned (calls_during s s'))
     = Some (fold_left PrimFloat.add ds (now e))).
Proof.
  intros Hn Hm He Hf Hrun. cbn zeta.
  destruct (run_Ok_inv s s' n m Hn Hm Hrun)
    as [[Hnil ->]|(e' & f' & He' & Hf' & _ & Hcalls & Hself & Henv)].
  - rewrite Hnil. unfold env_of in *. cbn [self heap length] in *.
    destruct (heap s !! env (self s)) as [[e0|?|?]|]; simplify_eq.
    split_and!; [done|simpl; lia|]. intros ?; lia.
  - simplify_eq. rewrite Henv, Hself, Hcalls.
    split_and!; try done. intros HN.
    rewrite spawned_arrivals_times, take_ge by (by rewrite sample_seq_length).
    apply cumulative_last. intros Hds.
    pose proof (sample_seq_length f (length (shuffled_plan n m (random s)))
                  (shuffled_state n m (random s))) as Hlen.
    rewrite Hds in Hlen. simpl in Hlen. lia.
Qed.

(** ** Construction *)

(** X7.  A scheduler constructed with the optional arguments left out runs
    on the configured defaults: when both default counts are non-negative a
    completed run spawns [NUM_NORMAL + NUM_EV] entities, and the delays it
    suspends on are the ones [sample_interarrival] returns. *)
Theorem omitted_arguments_fall_back cfg (env_ p c l : loc) s s' :
  CustomVehicleGenerator_init cfg env_ p c l None None None = Ok (self s) →
  (0 ≤ NUM_NORMAL cfg)%Z → (0 ≤ NUM_EV cfg)%Z →
  CustomVehicleGenerator_run s = (Ok tt, s') →
  let N := length (shuffled_plan (NUM_NORMAL cfg) (NUM_EV cfg) (random s)) in
  let r1 := shuffled_state (NUM_NORMAL cfg) (NUM_EV cfg) (random s) in
  Z.of_nat (length (spawned (calls_during s s')))
  = (NUM_NORMAL cfg + NUM_EV cfg)%Z
  ∧ delays (calls_during s s') = sample_seq (sample_interarrival cfg) N r1.
Proof.
  intros Hinit Hn0 Hm0 Hrun. cbn zeta.
  apply init_attrs in Hinit as (_ & _ & _ & _ & _ & Hf & Hn & Hm).
  cbn [default from_option id] in Hf, Hn, Hm.
  pose proof (shuffled_plan_length _ _ (random s) Hn0 Hm0) as Hlen.
  destruct (run_Ok_inv s s' _ _ Hn Hm Hrun)
    as [[Hnil ->]|(e & f & He & Hf' & _ & Hcalls & _)].
  - rewrite calls_during_same_heap by done. rewrite Hnil in *.
    simpl in Hlen. by rewrite <- Hlen.
  - simplify_eq. rewrite Hcalls, spawned_arrivals_length, delays_arrivals.
    rewrite sample_seq_length, Nat.min_id.
    split; [done|]. apply take_ge. by rewrite sample_seq_length.
Qed.

(** ** A plan of one type *)

(** X8.  When one of the counts is zero or negative the shuffle has nothing
    to reorder: a completed run spawns entities of the other type only, as
    many as that count says. *)
Theorem run_of_one_type s s' n m :
  normal_count (self s) = Some n → ev_count (self s) = Some m →
  CustomVehicleGenerator_run s = (Ok tt, s') →
  let types := (λ tv, vtype tv.2) <$> spawned (calls_during s s') in
  ((m ≤ 0)%Z → types = replicate (Z.to_nat n) "normal")
  ∧ ((n ≤ 0)%Z → types = replicate (Z.to_nat m) "ev").
Proof.
  intros Hn Hm Hrun. cbn zeta.
  rewrite (run_Ok_types s s' n m) by done.
  destruct (shuffled_plan_spec n m (random s)) as [_ Hperm].
  unfold unshuffled in Hperm. split; intros Hle; symmetry.
  - apply replicate_Permutation. rewrite Hperm.
    rewrite (Z2Nat.nonpos m) by done. simpl. by rewrite app_nil_r.
  - apply replicate_Permutation. rewrite Hperm.
    by rewrite (Z2Nat.nonpos n) by done.
Qed.

(** ** The base class as an injector, and [run] against direct calls *)

Lemma spawned_injections_handles g (vtypes : list string) : ∀ t k t' v,
  (t', v) ∈ spawned (injections g t k vtypes) → passes_handles g v.
Proof.
  induction vtypes as [|vt rest IH]; intros t k t' v; simpl;
    [by intros ?%elem_of_nil|].
  intros [?|Hin]%elem_of_cons; [by simplify_eq|]. by eapply IH.
Qed.

(** X9.  An instance set up by [VehicleGenerator.__init__] alone, which
    cannot [run], does work as an injector: on an environment every direct
    call succeeds, the identifiers start at 0, and each entity is handed the
    very environment, pools and logger the constructor was given. *)
Theorem base_instance_can_inject (env_ p c l : loc) (vtypes : list string)
    s e :
  VehicleGenerator_init env_ p c l = Ok (self s) →
  env_of s = Some e →
  ∃ s',
    generate_each vtypes s = (Ok tt, s')
    ∧ (λ tv, vtype tv.2) <$> spawned (calls_during s s') = vtypes
    ∧ (λ tv, vid tv.2) <$> spawned (calls_during s s')
      = seqZ 0 (Z.of_nat (length vtypes))
    ∧ ∀ t v, (t, v) ∈ spawned (calls_during s s') →
        v_env v = env_ ∧ v_parking_res v = p
        ∧ v_charger_res v = c ∧ v_logger v = l.
Proof.
  intros Hinit He. rewrite (generate_each_closed vtypes s e He).
  eexists. split; [reflexivity|].
  erewrite calls_during_insert; [|done|done|reflexivity].
  destruct (spawned_injections (self s) vtypes (now e) (next_id (self s)))
    as (-> & -> & _ & _).
  unfold VehicleGenerator_init in Hinit. injection Hinit as Hg.
  split; [done|]. split; [by rewrite <- Hg|].
  intros t v Hin%spawned_injections_handles. unfold passes_handles in Hin.
  by rewrite <- Hg in Hin.
Qed.

Lemma vehicles_arrivals_injections g plan : ∀ t t' k ds,
  length ds = length plan →
  snd <$> spawned (arrivals g t k plan ds)
  = snd <$> spawned (injections g t' k plan).
Proof.
  induction plan as [|vt plan IH]; intros t t' k [|d ds] Hlen;
    simplify_eq/=; [done|].
  f_equal. unfold spawned in IH. by apply IH.
Qed.

(** X10.  A completed run spawns exactly the entities that one direct call
    of [generate_vehicle] per planned type, in plan order, would have
    spawned from the same state, and leaves the scheduler's attributes as
    those calls would; the run differs only in the timeouts it waits on
    in between. *)
Theorem run_spawns_what_direct_calls_would s s' e n m :
  normal_count (self s) = Some n → ev_count (self s) = Some m →
  env_of s = Some e →
  CustomVehicleGenerator_run s = (Ok tt, s') →
  ∃ s'',
    generate_each (shuffled_plan n m (random s)) s = (Ok tt, s'')
    ∧ snd <$> spawned (calls_during s s'')
      = snd <$> spawned (calls_during s s')
    ∧ self s'' = self s'.
Proof.
  intros Hn Hm He Hrun.
  rewrite (generate_each_closed _ s e He). eexists. split; [reflexivity|].
  erewrite (calls_during_insert s (Build_Sim _ _ _)); [|done|done|reflexivity].
  cbn [self].
  destruct (run_Ok_inv s s' n m Hn Hm Hrun)
    as [[Hnil ->]|(e' & f & He' & Hf & _ & Hcalls & Hself & _)].
  - rewrite Hnil, calls_during_same_heap by done. cbn [self length].
    split; [done|]. apply with_next_id_same.
  - simplify_eq. rewrite Hcalls, Hself. split; [|done].
    symmetry. apply vehicles_arrivals_injections.
    by rewrite sample_seq_length.
Qed.

End MoreProperties.

(** * The scenario, checked against the theorems *)

Lemma run_spawns_configured_multiset_witness :
  Z.of_nat (length (spawned (calls_during steady steady_done))) = (3 + 2)%Z
  ∧ Z.of_nat (length (filter (λ y, y = "normal")
                        ((λ tv, vtype tv.2)
                           <$> spawned (calls_during steady steady_done))))
    = 3%Z
  ∧ Z.of_nat (length (filter (λ y, y = "ev")
                        ((λ tv, vtype tv.2)
                           <$> spawned (calls_during steady steady_done))))
    = 2%Z
  ∧ (λ tv, vtype tv.2) <$> spawned (calls_during steady steady_done)
    ≡ₚ replicate (Z.to_nat 3) "normal" ++ replicate (Z.to_nat 2) "ev".
Proof.
  apply (run_spawns_configured_multiset steady steady_done 3 2).
  - reflexivity.
  - reflexivity.
  - lia.
  - lia.
  - vm_compute. reflexivity.
Defined.

Lemma identifiers_consecutive_witness :
  (λ tv, vid tv.2) <$> spawned (calls_during steady steady_done)
  = seqZ 0 (3 + 2)
  ∧ ∃ s1 s2,
      generate_vehicle "ev" steady = (Ok tt, s1)
      ∧ generate_vehicle "ev" s1 = (Ok tt, s2)
      ∧ spawned (calls_during steady s2)
        = [(now demo_env, mk_vehicle (self steady) (next_id (self steady)) "ev");
           (now demo_env,
            mk_vehicle (self steady) (next_id (self steady) + 1) "ev")]
      ∧ delays (calls_during steady s2) = []
      ∧ now <$> env_of s2 = Some (now demo_env).
Proof.
  destruct (@identifiers_consecutive (list nat) tape_random)
    as (Hrun & _ & Htwice).
  split.
  - apply (Hrun demo_cfg 1%positive 2%positive 3%positive 4%positive
             (Some (const_sampler 1)) (Some 3%Z) (Some 2%Z) steady steady_done).
    + reflexivity.
    + simpl. lia.
    + simpl. lia.
    + vm_compute. reflexivity.
  - apply (Htwice "ev" "ev" steady demo_env). reflexivity.
Defined.

Lemma spawn_times_are_delay_sums_witness :
  (calls_during steady steady_done
   = arrivals (self steady) (now demo_env) (next_id (self steady))
       (shuffled_plan 3 2 (random steady))
       (sample_seq (const_sampler 1)
          (length (shuffled_plan 3 2 (random steady)))
          (shuffled_state 3 2 (random steady))))
  ∧ (fst <$> spawned (calls_during steady steady_done)) !! 2%nat
  = Some (fold_left PrimFloat.add
            (take 3 (sample_seq (const_sampler 1)
                       (length (shuffled_plan 3 2 (random steady)))
                       (shuffled_state 3 2 (random steady))))
            (now demo_env))
  ∧ ∃ s', CustomVehicleGenerator_run steady = (Ok tt, s')
          ∧ fst <$> spawned (calls_during steady s') = [1; 2; 3; 4; 5]%float.
Proof.
  destruct (@spawn_times_are_delay_sums (list nat) tape_random)
    as (Hsum & Hconst).
  destruct (Hsum steady steady_done demo_env (const_sampler 1) 3%Z 2%Z)
    as (Hcalls & _ & _ & Htimes).
  { reflexivity. }
  { reflexivity. }
  { reflexivity. }
  { reflexivity. }
  { vm_compute. reflexivity. }
  split_and!.
  - exact Hcalls.
  - apply Htimes. vm_compute. lia.
  - apply (Hconst steady demo_env (const_sampler 1)); reflexivity.
Defined.

(** C4, as the claim has it, fails: the constructor does not raise on a
    negative count. *)
Lemma negative_count_is_not_rejected :
  ¬ ∃ e, CustomVehicleGenerator_init demo_cfg 1%positive 2%positive 3%positive
           4%positive None (Some (-1)%Z) (Some 2%Z) = Raise e.
Proof. intros [e He]. discriminate He. Qed.

Lemma negative_counts_are_accepted_witness :
  ∃ g,
    CustomVehicleGenerator_init demo_cfg 1%positive 2%positive 3%positive
      4%positive None (Some (-1)%Z) (Some 2%Z) = Ok g
    ∧ normal_count g = Some (-1)%Z ∧ ev_count g = Some 2%Z
    ∧ ∀ (r : list nat) (h : gmap loc Obj),
        ∃ plan,
          (CustomVehicleGenerator_vehicle_types
             {| self := g; random := r; heap := h |}).1 = Ok plan
          ∧ plan ≡ₚ replicate (Z.to_nat (-1)) "normal"
                      ++ replicate (Z.to_nat 2) "ev"
          ∧ ((-1 < 0)%Z → filter (λ y, y = "normal") plan = [])
          ∧ ((2 < 0)%Z → filter (λ y, y = "ev") plan = []).
Proof.
  apply (negative_counts_are_accepted demo_cfg 1%positive 2%positive
           3%positive 4%positive None (-1)%Z 2%Z).
  left. lia.
Defined.

Lemma negative_delay_aborts_run_witness :
  ∃ s',
    CustomVehicleGenerator_run jolted
    = (Raise (ValueError "Negative delay"), s')
    ∧ (λ tv, vtype tv.2) <$> spawned (calls_during jolted s')
      = take 2 (shuffled_plan 3 2 (random jolted))
    ∧ length (spawned (calls_during jolted s')) = 2%nat
    ∧ delays (calls_during jolted s')
      = take 2 (sample_seq tape_sampler
                  (length (shuffled_plan 3 2 (random jolted)))
                  (shuffled_state 3 2 (random jolted)))
    ∧ now <$> env_of s'
      = Some (fold_left PrimFloat.add
                (take 2 (sample_seq tape_sampler
                           (length (shuffled_plan 3 2 (random jolted)))
                           (shuffled_state 3 2 (random jolted))))
                (now demo_env))
    ∧ next_id (self s') = (next_id (self jolted) + Z.of_nat 2)%Z.
Proof.
  apply (negative_delay_aborts_run jolted demo_env tape_sampler 3 2 2
           (-1)%float).
  - reflexivity.
  - reflexivity.
  - reflexivity.
  - reflexivity.
  - vm_compute. reflexivity.
  - reflexivity.
  - vm_compute. repeat constructor.
Defined.

Lemma run_of_nothing_is_immediate_witness :
  CustomVehicleGenerator_run idle = (Ok tt, idle)
  ∧ spawned (calls_during idle (CustomVehicleGenerator_run idle).2) = []
  ∧ delays (calls_during idle (CustomVehicleGenerator_run idle).2) = [].
Proof. apply (run_of_nothing_is_immediate idle); reflexivity. Defined.

Lemma scheduler_only_advances_counter_witness :
  heap (exec_ops demo_ops steady) !! 2%positive = heap steady !! 2%positive
  ∧ heap (exec_ops demo_ops steady) !! 3%positive = heap steady !! 3%positive
  ∧ heap (exec_ops demo_ops steady) !! 4%positive = heap steady !! 4%positive.
Proof.
  destruct (scheduler_only_advances_counter demo_ops steady)
    as (_ & _ & Hframe & _).
  split_and!; apply Hframe; discriminate.
Defined.

Lemma same_seed_same_plan_and_delays_witness :
  (CustomVehicleGenerator_vehicle_types steady).1
  = (CustomVehicleGenerator_vehicle_types late).1
  ∧ (CustomVehicleGenerator_run steady).1 = (CustomVehicleGenerator_run late).1
  ∧ delays (calls_during steady (CustomVehicleGenerator_run steady).2)
    = delays (calls_during late (CustomVehicleGenerator_run late).2)
  ∧ (λ tv, vtype tv.2)
      <$> spawned (calls_during steady (CustomVehicleGenerator_run steady).2)
    = (λ tv, vtype tv.2)
        <$> spawned (calls_during late (CustomVehicleGenerator_run late).2)
  ∧ random (CustomVehicleGenerator_run steady).2
    = random (CustomVehicleGenerator_run late).2.
Proof.
  apply (same_seed_same_plan_and_delays steady late demo_env late_env);
    reflexivity.
Defined.

(** * The scenario, checked against the further properties *)

Lemma direct_spawns_share_the_clock_witness :
  ∃ s',
    generate_each ["ev"; "truck"; "normal"] steady = (Ok tt, s')
    ∧ (λ tv, vtype tv.2) <$> spawned (calls_during steady s')
      = ["ev"; "truck"; "normal"]
    ∧ (λ tv, vid tv.2) <$> spawned (calls_during steady s')
      = seqZ (next_id (self steady))
          (Z.of_nat (length ["ev"; "truck"; "normal"]))
    ∧ fst <$> spawned (calls_during steady s')
      = replicate (length ["ev"; "truck"; "normal"]) (now demo_env)
    ∧ delays (calls_during steady s') = []
    ∧ now <$> env_of s' = Some (now demo_env)
    ∧ random s' = random steady
    ∧ next_id (self s')
      = (next_id (self steady)
         + Z.of_nat (length ["ev"; "truck"; "normal"]))%Z.
Proof.
  apply (direct_spawns_share_the_clock ["ev"; "truck"; "normal"] steady
           demo_env).
  reflexivity.
Defined.

Lemma without_environment_witness :
  generate_vehicle "ev" adrift
  = (Raise (AttributeError "process"),
     {| self := with_next_id (self adrift) (next_id (self adrift) + 1);
        random := random adrift; heap := heap adrift |})
  ∧ CustomVehicleGenerator_run adrift
    = (Raise (AttributeError "timeout"),
       {| self := self adrift; random := shuffled_state 3 2 (random adrift);
          heap := heap adrift |}).
Proof.
  destruct (without_environment adrift) as [Hgen Hrun].
  { reflexivity. }
  split.
  - apply Hgen.
  - apply (Hrun 3%Z 2%Z).
    + reflexivity.
    + reflexivity.
    + vm_compute. discriminate.
Defined.

Lemma identifiers_never_reused_witness :
  (λ tv, vid tv.2) <$> spawned (calls_during steady (exec_ops demo_ops steady))
  = seqZ (next_id (self steady))
      (Z.of_nat
         (length ((λ tv, vid tv.2)
                    <$> spawned
                          (calls_during steady (exec_ops demo_ops steady)))))
  ∧ next_id (self (exec_ops demo_ops steady))
    = (next_id (self steady)
       + Z.of_nat
           (length ((λ tv, vid tv.2)
                      <$> spawned
                            (calls_during steady
                               (exec_ops demo_ops steady)))))%Z.
Proof.
  destruct (identifiers_never_reused demo_ops steady) as (_ & _ & Hids).
  apply (Hids demo_env). reflexivity.
Defined.


Lemma sampler_is_called_once_per_entity_witness :
  random (CustomVehicleGenerator_run steady).2
  = sample_state (const_sampler 1) (length (shuffled_plan 3 2 (random steady)))
      (shuffled_state 3 2 (random steady))
  ∧ random (CustomVehicleGenerator_run jolted).2
    = sample_state tape_sampler 3 (shuffled_state 3 2 (random jolted)).
Proof.
  split.
  - apply (sampler_is_called_once_per_entity steady demo_env (const_sampler 1)
             3 2); try reflexivity.
    vm_compute. repeat constructor.
  - apply (sampler_is_called_once_per_entity jolted demo_env tape_sampler
             3 2 eq_refl eq_refl eq_refl eq_refl) with (d := (-1)%float).
    + vm_compute. reflexivity.
    + reflexivity.
    + vm_compute. repeat constructor.
Defined.

Lemma run_ends_at_the_last_spawn_witness :
  now <$> env_of steady_done
  = Some (fold_left PrimFloat.add
            (sample_seq (const_sampler 1)
               (length (shuffled_plan 3 2 (random steady)))
               (shuffled_state 3 2 (random steady)))
            (now demo_env))
  ∧ next_id (self steady_done)
    = (next_id (self steady)
       + Z.of_nat (length (shuffled_plan 3 2 (random steady))))%Z
  ∧ ((0 < length (shuffled_plan 3 2 (random steady)))%nat →
     last (fst <$> spawned (calls_during steady steady_done))
     = Some (fold_left PrimFloat.add
               (sample_seq (const_sampler 1)
                  (length (shuffled_plan 3 2 (random steady)))
                  (shuffled_state 3 2 (random steady)))
               (now demo_env))).
Proof.
  apply (run_ends_at_the_last_spawn steady steady_done demo_env
           (const_sampler 1) 3 2); reflexivity.
Defined.

Lemma omitted_arguments_fall_back_witness :
  Z.of_nat (length (spawned (calls_during by_default
                               (CustomVehicleGenerator_run by_default).2)))
  = (NUM_NORMAL demo_cfg + NUM_EV demo_cfg)%Z
  ∧ delays (calls_during by_default (CustomVehicleGenerator_run by_default).2)
    = sample_seq (sample_interarrival demo_cfg)
        (length (shuffled_plan (NUM_NORMAL demo_cfg) (NUM_EV demo_cfg)
                   (random by_default)))
        (shuffled_state (NUM_NORMAL demo_cfg) (NUM_EV demo_cfg)
           (random by_default)).
Proof.
  apply (omitted_arguments_fall_back demo_cfg 1%positive 2%positive 3%positive
           4%positive by_default (CustomVehicleGenerator_run by_default).2).
  - reflexivity.
  - simpl. lia.
  - simpl. lia.
  - vm_compute. reflexivity.
Defined.

Lemma run_of_one_type_witness :
  ((0 ≤ 0)%Z →
   (λ tv, vtype tv.2)
     <$> spawned (calls_during normals_only
                    (CustomVehicleGenerator_run normals_only).2)
   = replicate (Z.to_nat 3) "normal")
  ∧ ((3 ≤ 0)%Z →
     (λ tv, vtype tv.2)
       <$> spawned (calls_during normals_only
                      (CustomVehicleGenerator_run normals_only).2)
     = replicate (Z.to_nat 0) "ev").
Proof.
  apply (run_of_one_type normals_only
           (CustomVehicleGenerator_run normals_only).2 3 0).
  - reflexivity.
  - reflexivity.
  - vm_compute. reflexivity.
Defined.

Lemma base_instance_can_inject_witness :
  ∃ s',
    generate_each ["ev"; "ev"]
      {| self := built (VehicleGenerator_init 1%positive 2%positive 3%positive
                          4%positive);
         random := demo_tape; heap := demo_heap |}
    = (Ok tt, s')
    ∧ (λ tv, vtype tv.2)
        <$> spawned
              (calls_during
                 {| self := built (VehicleGenerator_init 1%positive 2%positive
                                     3%positive 4%positive);
                    random := demo_tape; heap := demo_heap |} s')
      = ["ev"; "ev"]
    ∧ (λ tv, vid tv.2)
        <$> spawned
              (calls_during
                 {| self := built (VehicleGenerator_init 1%positive 2%positive
                                     3%positive 4%positive);
                    random := demo_tape; heap := demo_heap |} s')
      = seqZ 0 (Z.of_nat (length ["ev"; "ev"]))
    ∧ ∀ t v,
        (t, v) ∈ spawned
                   (calls_during
                      {| self := built (VehicleGenerator_init 1%positive
                                          2%positive 3%positive 4%positive);
                         random := demo_tape; heap := demo_heap |} s') →
        v_env v = 1%positive ∧ v_parking_res v = 2%positive
        ∧ v_charger_res v = 3%positive ∧ v_logger v = 4%positive.
Proof.
  apply (base_instance_can_inject 1%positive 2%positive 3%positive 4%positive
           ["ev"; "ev"] _ demo_env); reflexivity.
Defined.

Lemma run_spawns_what_direct_calls_would_witness :
  ∃ s'',
    generate_each (shuffled_plan 3 2 (random steady)) steady = (Ok tt, s'')
    ∧ snd <$> spawned (calls_during steady s'')
      = snd <$> spawned (calls_during steady steady_done)
    ∧ self s'' = self steady_done.
Proof.
  apply (run_spawns_what_direct_calls_would steady steady_done demo_env 3 2);
    reflexivity.
Defined.
